(** * email_parser: a shallow embedding of [email_parser.py]

    The program normalises [.eml] and [.msg] files into one [Email]
    record.  Python values are modelled as follows.

    - [str] is a sequence of Unicode code points ([list N]); [bytes] is
      [list byte].
    - A raised exception is a value of [exn]; a call that may raise
      returns a [result].
    - The adapter's [mail_data] dictionary and the standard output are
      threaded through the monad [M].
    - The standard library and [extract_msg] are collaborators.  What
      the program reads from their objects is a field of the records
      [EmailMessage] and [MsgFile]; their parsers are fields of [Lib].
      The codecs named in [ENCODINGS], [os.path.splitext], and the
      method called [walk] are written out. *)

From Stdlib Require Import List Strings.String Strings.Ascii Strings.Byte NArith ZArith Bool Lia.
Import ListNotations.
Open Scope list_scope.

(** ** Python strings and bytes *)

Definition str := list N.
Definition bytes := list byte.

(** A string literal of the source; every literal of the program is ASCII. *)
Definition lit (s : string) : str := map N_of_ascii (list_ascii_of_string s).

Fixpoint str_eqb (a b : str) : bool :=
  match a, b with
  | [], [] => true
  | x :: a', y :: b' => N.eqb x y && str_eqb a' b'
  | _, _ => false
  end.

(** [x in l] for a list of strings. *)
Definition str_in (x : str) (l : list str) : bool := existsb (str_eqb x) l.

(** [str.lower] on the ASCII letters; header names are ASCII. *)
Definition lower_char (c : N) : N :=
  if (65 <=? c)%N && (c <=? 90)%N then (c + 32)%N else c.
Definition lower (s : str) : str := map lower_char s.

Section Strip.
Context {A : Type} (drop : A -> bool).

Fixpoint lstrip (l : list A) : list A :=
  match l with
  | x :: l' => if drop x then lstrip l' else l
  | [] => []
  end.

Definition rstrip (l : list A) : list A := rev (lstrip (rev l)).

Definition strip (l : list A) : list A := lstrip (rstrip l).
End Strip.

(** [bytes.strip()] removes ASCII whitespace: space, tab, LF, VT, FF, CR. *)
Definition is_space (b : byte) : bool :=
  let n := Byte.to_N b in ((9 <=? n)%N && (n <=? 13)%N) || (n =? 32)%N.
Definition bytes_strip (b : bytes) : bytes := strip is_space b.

(** [s.strip("\x00")]. *)
Definition is_nul (c : N) : bool := (c =? 0)%N.
Definition strip_nul (s : str) : str := strip is_nul s.

(** ** Exceptions and results *)

Inductive exn_class :=
  | ValueError | TypeError | IndexError | LookupError | UnicodeDecodeError
  | AttributeError | RuntimeError | NotImplementedError | OtherException
  | KeyboardInterrupt | SystemExit.

Record exn := mkExn { exn_cls : exn_class; exn_msg : str }.

(** [isinstance(e, Exception)]: the two last classes derive from
    [BaseException] only. *)
Definition is_Exception (e : exn) : bool :=
  match exn_cls e with
  | KeyboardInterrupt | SystemExit => false
  | _ => true
  end.

Inductive result (A : Type) :=
  | Ok (a : A)
  | Raise (e : exn).
Arguments Ok {A} a.
Arguments Raise {A} e.

(** ** [os.path.splitext] (posixpath: [sep] is [/], no [altsep]) *)

Definition SEP : N := 47.
Definition EXTSEP : N := 46.

(** [p.rfind(c)]: the highest index of [c] in [p], or [-1]. *)
Fixpoint rfind_from (i : Z) (p : str) (c : N) : Z :=
  match p with
  | [] => (-1)%Z
  | x :: p' =>
      let r := rfind_from (i + 1) p' c in
      if (0 <=? r)%Z then r else if N.eqb x c then i else (-1)%Z
  end.
Definition rfind (p : str) (c : N) : Z := rfind_from 0 p c.

(** The [while] loop of [_splitext]: is any of [p[lo:hi]] not a dot? *)
Definition has_non_dot (p : str) (lo hi : Z) : bool :=
  existsb (fun c => negb (N.eqb c EXTSEP))
          (firstn (Z.to_nat (hi - lo)) (skipn (Z.to_nat lo) p)).

Definition splitext (p : str) : str * str :=
  let sepIndex := rfind p SEP in
  let dotIndex := rfind p EXTSEP in
  if (sepIndex <? dotIndex)%Z && has_non_dot p (sepIndex + 1) dotIndex
  then (firstn (Z.to_nat dotIndex) p, skipn (Z.to_nat dotIndex) p)
  else (p, []).

(** ** Codecs

    The five codecs of [ENCODINGS], each as a partial function: [None]
    is [UnicodeDecodeError]. *)

Definition codec := bytes -> option str.

Definition decode_ascii : codec := fun b =>
  if forallb (fun x => (Byte.to_N x <? 128)%N) b
  then Some (map Byte.to_N b) else None.

Definition decode_latin_1 : codec := fun b => Some (map Byte.to_N b).

Definition in_range (lo hi n : N) : bool := ((lo <=? n) && (n <=? hi))%N.

(** Strict UTF-8: no overlong forms, no surrogates, nothing above U+10FFFF. *)
Fixpoint decode_utf_8 (b : bytes) : option str :=
  match b with
  | [] => Some []
  | b0 :: r0 =>
    let n0 := Byte.to_N b0 in
    if (n0 <? 128)%N then option_map (cons n0) (decode_utf_8 r0) else
    match r0 with
    | [] => None
    | b1 :: r1 =>
      let n1 := Byte.to_N b1 in
      if in_range 194 223 n0 then
        if in_range 128 191 n1
        then option_map (cons ((n0 - 192) * 64 + (n1 - 128))%N) (decode_utf_8 r1)
        else None
      else
      match r1 with
      | [] => None
      | b2 :: r2 =>
        let n2 := Byte.to_N b2 in
        if in_range 224 239 n0 then
          let lo := if (n0 =? 224)%N then 160%N else 128%N in
          let hi := if (n0 =? 237)%N then 159%N else 191%N in
          if in_range lo hi n1 && in_range 128 191 n2
          then option_map
                 (cons ((n0 - 224) * 4096 + (n1 - 128) * 64 + (n2 - 128))%N)
                 (decode_utf_8 r2)
          else None
        else
        match r2 with
        | [] => None
        | b3 :: r3 =>
          let n3 := Byte.to_N b3 in
          if in_range 240 244 n0 then
            let lo := if (n0 =? 240)%N then 144%N else 128%N in
            let hi := if (n0 =? 244)%N then 143%N else 191%N in
            if in_range lo hi n1 && in_range 128 191 n2 && in_range 128 191 n3
            then option_map
                   (cons ((n0 - 240) * 262144 + (n1 - 128) * 4096
                          + (n2 - 128) * 64 + (n3 - 128))%N)
                   (decode_utf_8 r3)
            else None
          else None
        end
      end
    end
  end.

(** [utf-8-sig]: a leading byte order mark EF BB BF is skipped. *)
Definition decode_utf_8_sig : codec := fun b =>
  match map Byte.to_N (firstn 3 b) with
  | [239; 187; 191]%N => decode_utf_8 (skipn 3 b)
  | _ => decode_utf_8 b
  end.

(** [cp1252]: 80..9F go through the table, where five bytes are
    undefined; every other byte is its own code point. *)
Definition cp1252_table : list (N * N) :=
  [ (128, 8364); (130, 8218); (131, 402); (132, 8222); (133, 8230);
    (134, 8224); (135, 8225); (136, 710); (137, 8240); (138, 352);
    (139, 8249); (140, 338); (142, 381); (145, 8216); (146, 8217);
    (147, 8220); (148, 8221); (149, 8226); (150, 8211); (151, 8212);
    (152, 732); (153, 8482); (154, 353); (155, 8250); (156, 339);
    (158, 382); (159, 376) ]%N.

Fixpoint assoc_N (k : N) (l : list (N * N)) : option N :=
  match l with
  | [] => None
  | (k', v) :: l' => if (k =? k')%N then Some v else assoc_N k l'
  end.

Definition cp1252_char (n : N) : option N :=
  if in_range 128 159 n then assoc_N n cp1252_table else Some n.

Fixpoint decode_cp1252 (b : bytes) : option str :=
  match b with
  | [] => Some []
  | x :: b' =>
      match cp1252_char (Byte.to_N x), decode_cp1252 b' with
      | Some c, Some s => Some (c :: s)
      | _, _ => None
      end
  end.

(** [body.decode("ascii", errors="ignore")]. *)
Definition decode_ascii_ignore (b : bytes) : str :=
  filter (fun n => (n <? 128)%N) (map Byte.to_N b).


(** ** The data model *)

(** [datetime.datetime] with an optional UTC offset in seconds. *)
Record datetime := mkDatetime {
  year : Z; month : Z; day : Z; hour : Z; minute : Z; second : Z;
  tzoffset : option Z }.

(** [Dict[str, str]], in insertion order. *)
Definition dict := list (str * str).

Fixpoint dict_get (d : dict) (k : str) : option str :=
  match d with
  | [] => None
  | (k', v) :: d' => if str_eqb k k' then Some v else dict_get d' k
  end.

(** [Union[datetime, str]]. *)
Inductive datetime_or_str :=
  | Datetime (d : datetime)
  | Str (s : str).

(** The [Email] typed dictionary.  A binary is [None] where
    [get_payload(decode=True)] returned [None]. *)
Record Email := mkEmail {
  subject : str;
  body : str;
  received_on : datetime_or_str;
  sender : dict;
  author : dict;
  to : list dict;
  cc : list dict;
  attachment_names : list str;
  attachment_binaries : list (option bytes);
  attachment_types : list str }.

(** What the program reads from an [email.message.Message]: each field
    is the value of the accessor of the same name, [headers] is the
    ordered header list behind [get] and [get_all], and [payload] is
    either the transfer-decoded bytes of a leaf or the sub-parts. *)
Inductive payload_of (M : Type) :=
  | Single (decoded : bytes)
  | Multipart (parts : list M).
Arguments Single {M} decoded.
Arguments Multipart {M} parts.

#[warnings="-register-all"]
Inductive EmailMessage := mkEmailMessage {
  headers : list (str * str);
  get_content_type : str;
  get_content_maintype : str;
  get_content_disposition : option str;
  get_params : option (list (str * str));
  get_filename : option str;
  payload : payload_of EmailMessage }.

Definition is_multipart (m : EmailMessage) : bool :=
  match payload m with Multipart _ => true | Single _ => false end.

(** [get_payload(decode=True)]: [None] on a multipart. *)
Definition get_payload_decode (m : EmailMessage) : option bytes :=
  match payload m with Single b => Some b | Multipart _ => None end.

(** [message.walk()]: the message, then the walk of each sub-part. *)
Fixpoint walk (m : EmailMessage) : list EmailMessage :=
  m :: match payload m with
       | Single _ => []
       | Multipart parts => flat_map walk parts
       end.

(** [message.get(name, failobj)]: first header of that name, names
    compared in lower case. *)
Fixpoint get (hs : list (str * str)) (name : str) (failobj : str) : str :=
  match hs with
  | [] => failobj
  | (k, v) :: hs' =>
      if str_eqb (lower k) (lower name) then v else get hs' name failobj
  end.

(** [message.get_all(name, [])]. *)
Definition get_all (hs : list (str * str)) (name : str) : list str :=
  map snd (filter (fun kv => str_eqb (lower (fst kv)) (lower name)) hs).

(** What the program reads from an [extract_msg] attachment and message. *)
Record Attachment := mkAttachment {
  shortFilename : option str;
  data : bytes }.

Record MsgFile := mkMsgFile {
  header : EmailMessage;
  msg_body : option (str + bytes);
  attachments : list Attachment }.

(** A binary file handle: its name and what [read] returns. *)
Record BinaryIO := mkBinaryIO {
  name : str;
  read : bytes }.

(** The collaborators. [parse_date] is [_parsedate_tz] on a non-empty
    value followed by the [datetime] constructor, [None] when either
    rejects the value. [other_codecs] is the codec registry beyond the
    names of [ENCODINGS]. [guess_type] is [mimetypes.guess_type]. *)
Record Lib := mkLib {
  message_from_binary_file : bytes -> EmailMessage;
  Message : bytes -> result MsgFile;
  parseaddr : str -> str * str;
  getaddresses : list str -> list (str * str);
  parse_date : str -> option datetime;
  other_codecs : str -> option codec;
  guess_type : str -> option str * option str }.

(** Values a caller may pass for [read_attachments]. *)
Inductive pyval :=
  | PyNone
  | PyBool (b : bool)
  | PyInt (z : Z)
  | PyStr (s : str).

(** [v is True]. *)
Definition is_True (v : pyval) : bool :=
  match v with PyBool true => true | _ => false end.

(** [bool(v)]. *)
Definition truthy (v : pyval) : bool :=
  match v with
  | PyNone => false
  | PyBool b => b
  | PyInt z => negb (z =? 0)%Z
  | PyStr s => match s with [] => false | _ => true end
  end.

(** [str(x)] of an optional string: the text [None] for [None]. *)
Definition py_str (x : option str) : str :=
  match x with Some s => s | None => lit "None" end.

(** ** Fallible and stateful code *)

Definition rbind {A B} (r : result A) (k : A -> result B) : result B :=
  match r with Ok a => k a | Raise e => Raise e end.

Notation "x <~ r ;; k" := (rbind r (fun x => k))
  (at level 61, r at next level, right associativity).

Definition raise {A} (c : exn_class) (msg : string) : result A :=
  Raise (mkExn c (lit msg)).

(** The adapter's [mail_data] and the standard output. *)
Record World := mkWorld {
  mail_data : Email;
  stdout : list str }.

Definition M (A : Type) := World -> result A * World.

Definition ret {A} (a : A) : M A := fun w => (Ok a, w).

Definition bind {A B} (m : M A) (k : A -> M B) : M B :=
  fun w => match m w with
           | (Ok a, w') => k a w'
           | (Raise e, w') => (Raise e, w')
           end.

Notation "x <- m ;; k" := (bind m (fun x => k))
  (at level 61, m at next level, right associativity).
Notation "m ;;; k" := (bind m (fun _ => k))
  (at level 61, right associativity).

Definition lift {A} (r : result A) : M A := fun w => (r, w).

Definition update (f : Email -> Email) : M unit :=
  fun w => (Ok tt, mkWorld (f (mail_data w)) (stdout w)).

Definition print (s : str) : M unit :=
  fun w => (Ok tt, mkWorld (mail_data w) (stdout w ++ [s])).

(** [try: m except Exception as e: handler(e)]. *)
Definition try_except_Exception {A} (m : M A) (handler : exn -> M A) : M A :=
  fun w => match m w with
           | (Raise e, w') =>
               if is_Exception e then handler e w' else (Raise e, w')
           | r => r
           end.

(** [for x in l: f(x)]. *)
Fixpoint for_each {A} (l : list A) (f : A -> M unit) : M unit :=
  match l with
  | [] => ret tt
  | x :: l' => f x ;;; for_each l' f
  end.

(** ** Writes to the [mail_data] dictionary *)

Definition set_subject (v : str) (e : Email) : Email :=
  mkEmail v (body e) (received_on e) (sender e) (author e) (to e) (cc e)
    (attachment_names e) (attachment_binaries e) (attachment_types e).
Definition set_body (v : str) (e : Email) : Email :=
  mkEmail (subject e) v (received_on e) (sender e) (author e) (to e) (cc e)
    (attachment_names e) (attachment_binaries e) (attachment_types e).
Definition set_received_on (v : datetime_or_str) (e : Email) : Email :=
  mkEmail (subject e) (body e) v (sender e) (author e) (to e) (cc e)
    (attachment_names e) (attachment_binaries e) (attachment_types e).
Definition set_sender (v : dict) (e : Email) : Email :=
  mkEmail (subject e) (body e) (received_on e) v (author e) (to e) (cc e)
    (attachment_names e) (attachment_binaries e) (attachment_types e).
Definition set_author (v : dict) (e : Email) : Email :=
  mkEmail (subject e) (body e) (received_on e) (sender e) v (to e) (cc e)
    (attachment_names e) (attachment_binaries e) (attachment_types e).
Definition set_to (v : list dict) (e : Email) : Email :=
  mkEmail (subject e) (body e) (received_on e) (sender e) (author e) v (cc e)
    (attachment_names e) (attachment_binaries e) (attachment_types e).
Definition set_cc (v : list dict) (e : Email) : Email :=
  mkEmail (subject e) (body e) (received_on e) (sender e) (author e) (to e) v
    (attachment_names e) (attachment_binaries e) (attachment_types e).

(** The three [append] calls that record one attachment. *)
Definition append_attachment (n : str) (b : option bytes) (t : str)
    (e : Email) : Email :=
  mkEmail (subject e) (body e) (received_on e) (sender e) (author e) (to e)
    (cc e) (attachment_names e ++ [n]) (attachment_binaries e ++ [b])
    (attachment_types e ++ [t]).

(** [mail_data[key] = v] for the two keys the program passes. *)
Definition set_address_list (key : str) (v : list dict) (e : Email) : Email :=
  if str_eqb key (lit "to") then set_to v e
  else if str_eqb key (lit "cc") then set_cc v e
  else e.

(** ** The program *)

Definition ENCODINGS : list str :=
  [lit "ascii"; lit "utf-8"; lit "utf-8-sig"; lit "latin-1"; lit "cp1252"].

Section Program.
Context (L : Lib).

(** The codec registry. *)
Definition lookup_codec (encoding : str) : option codec :=
  if str_eqb encoding (lit "ascii") then Some decode_ascii
  else if str_eqb encoding (lit "utf-8") then Some decode_utf_8
  else if str_eqb encoding (lit "utf-8-sig") then Some decode_utf_8_sig
  else if str_eqb encoding (lit "latin-1") then Some decode_latin_1
  else if str_eqb encoding (lit "cp1252") then Some decode_cp1252
  else other_codecs L encoding.

(** [b.decode(encoding)]. *)
Definition bytes_decode (b : bytes) (encoding : str) : result str :=
  match lookup_codec encoding with
  | None => raise LookupError "unknown encoding"
  | Some c =>
      match c b with
      | Some s => Ok s
      | None => raise UnicodeDecodeError "codec can't decode bytes"
      end
  end.

(** [email.utils.parsedate_to_datetime]. *)
Definition parsedate_to_datetime (value : str) : result datetime :=
  match (match value with [] => None | _ => parse_date L value end) with
  | None =>
      Raise (mkExn ValueError
               (lit "Invalid date value or format " ++ [34%N] ++ value
                ++ [34%N]))
  | Some d => Ok d
  end.

Definition extract_attachments_from_eml (message : EmailMessage) : M unit :=
  for_each (walk message) (fun part =>
    match get_content_disposition part with
    | Some d =>
        if str_eqb d (lit "attachment") then
          let content_type := get_content_type part in
          let bin_data := get_payload_decode part in
          match get_filename part with
          | Some name => update (append_attachment name bin_data content_type)
          | None => ret tt
          end
        else ret tt
    | None => ret tt
    end).

Definition identity (p : str * str) : dict :=
  [(lit "name", fst p); (lit "smtp_address", snd p)].

Definition extract_address_list_from_eml (message : EmailMessage)
    (key : str) : M unit :=
  update (set_address_list key
            (map identity (getaddresses L (get_all (headers message) key)))).

Definition extract_metadata_from_eml_header (message : EmailMessage)
    : M unit :=
  timestamp <- lift (parsedate_to_datetime
                       (get (headers message) (lit "date") [])) ;;
  update (set_received_on (Datetime timestamp)) ;;;
  update (set_subject (get (headers message) (lit "subject") [])) ;;;
  let author_information :=
    identity (parseaddr L (get (headers message) (lit "from") [])) in
  update (set_author author_information) ;;;
  update (set_sender author_information) ;;;
  extract_address_list_from_eml message (lit "to") ;;;
  extract_address_list_from_eml message (lit "cc").

(** [part.get_params()[1][1]], guarded by [except IndexError]. *)
Definition subscript_params (part : EmailMessage) : result str :=
  match get_params part with
  | None => raise TypeError "'NoneType' object is not subscriptable"
  | Some ps =>
      match nth_error ps 1 with
      | Some kv => Ok (snd kv)
      | None => raise IndexError "list index out of range"
      end
  end.

Definition get_charset (part : EmailMessage) : result str :=
  match subscript_params part with
  | Raise e =>
      match exn_cls e with
      | IndexError => Ok (lit "utf-8")
      | _ => Raise e
      end
  | r => r
  end.

(** [part.get_payload(decode=True).strip().decode(charset)]. *)
Definition decode_payload (part : EmailMessage) (charset : str)
    : result str :=
  match get_payload_decode part with
  | None => raise AttributeError "'NoneType' object has no attribute 'strip'"
  | Some b => bytes_decode (bytes_strip b) charset
  end.

Definition is_body_part (part : EmailMessage) : bool :=
  str_eqb (get_content_maintype part) (lit "text")
  && negb (match get_content_disposition part with
           | Some d => str_eqb d (lit "attachment")
           | None => false
           end).

(** The [for part in message.walk()] loop of [extract_body_from_eml]. *)
Fixpoint body_loop (parts : list EmailMessage) (body : str) : result str :=
  match parts with
  | [] => Ok body
  | part :: rest =>
      if is_body_part part then
        charset <~ get_charset part ;;
        body' <~ decode_payload part charset ;;
        body_loop rest body'
      else body_loop rest body
  end.

Definition extract_body_from_eml (message : EmailMessage) : result str :=
  if is_multipart message then body_loop (walk message) []
  else
    charset <~ get_charset message ;;
    decode_payload message charset.

Definition EmlAdapter_decode_from_file (file : BinaryIO)
    (read_attachments : pyval) : M Email :=
  let message := message_from_binary_file L (read file) in
  extract_metadata_from_eml_header message ;;;
  body <- lift (extract_body_from_eml message) ;;
  update (set_body body) ;;;
  (if is_True read_attachments
   then extract_attachments_from_eml message else ret tt) ;;;
  fun w => (Ok (mail_data w), w).

Definition EmlAdapter_decode (file : BinaryIO) (read_attachments : pyval)
    : M (option Email) :=
  try_except_Exception
    (r <- EmlAdapter_decode_from_file file read_attachments ;; ret (Some r))
    (fun _ => ret None).

(** The [for encoding in encodings] loop of [decode_msg_body]. *)
Fixpoint decode_loop (b : bytes) (encodings : list str) : result str :=
  match encodings with
  | [] => Ok (decode_ascii_ignore b)
  | encoding :: rest =>
      match bytes_decode b encoding with
      | Ok s => Ok s
      | Raise e =>
          match exn_cls e with
          | UnicodeDecodeError => decode_loop b rest
          | _ => Raise e
          end
      end
  end.

Definition decode_msg_body (body : str + bytes) (encodings : list str)
    : result str :=
  match body with
  | inl s => Ok s
  | inr b => decode_loop b encodings
  end.

Definition MsgAdapter_decode_from_file (file : BinaryIO)
    (read_attachments : pyval) : M Email :=
  let mail := read file in
  message <- lift (Message L mail) ;;
  extract_metadata_from_eml_header (header message) ;;;
  match msg_body message with
  | Some b =>
      s <- lift (decode_msg_body b ENCODINGS) ;;
      update (set_body (strip_nul s))
  | None => ret tt
  end ;;;
  (if is_True read_attachments then
     for_each (attachments message) (fun attachment =>
       match shortFilename attachment with
       | Some name =>
           let content_type := py_str (fst (guess_type L name)) in
           let bin_data := data attachment in
           update (append_attachment name (Some bin_data) content_type)
       | None => ret tt
       end)
   else ret tt) ;;;
  fun w => (Ok (mail_data w), w).

Definition MsgAdapter_decode (file : BinaryIO) (read_attachments : pyval)
    : M (option Email) :=
  try_except_Exception
    (r <- MsgAdapter_decode_from_file file read_attachments ;; ret (Some r))
    (fun e => print (exn_msg e) ;;; ret None).

End Program.

(** ** The adapter classes and the dispatcher *)

Inductive adapter_class := MailAdapter | EmlAdapter | MsgAdapter.

Definition supported_extension (c : adapter_class) : str :=
  match c with
  | MailAdapter => []
  | EmlAdapter => lit ".eml"
  | MsgAdapter => lit ".msg"
  end.

(** [MailAdapter.__subclasses__()], in definition order. *)
Definition MailAdapter_subclasses : list adapter_class :=
  [EmlAdapter; MsgAdapter].

Definition adapter_class_eqb (a b : adapter_class) : bool :=
  match a, b with
  | MailAdapter, MailAdapter | EmlAdapter, EmlAdapter
  | MsgAdapter, MsgAdapter => true
  | _, _ => false
  end.

(** The [for subclass in ...] loop of [__new__]; [None] when the loop
    ends without returning. *)
Fixpoint new_loop (file_extension : str) (subs : list adapter_class)
    : option (result adapter_class) :=
  match subs with
  | [] => None
  | subclass :: rest =>
      match supported_extension subclass with
      | [] => Some (raise RuntimeError "Supported formats property is needed")
      | ext =>
          if str_eqb file_extension ext then Some (Ok subclass)
          else new_loop file_extension rest
      end
  end.

(** [MailAdapter.__new__(cls, file)]: the class of the new instance. *)
Definition MailAdapter_new (cls : adapter_class) (file : BinaryIO)
    : result adapter_class :=
  let file_extension := snd (splitext (name file)) in
  if negb (str_in file_extension [lit ".eml"; lit ".msg"]) then
    Raise (mkExn ValueError
             (lit "Unsupported mail extension " ++ file_extension
              ++ lit " given."))
  else if adapter_class_eqb cls MailAdapter then
    match new_loop file_extension MailAdapter_subclasses with
    | Some r => r
    | None => Ok cls
    end
  else Ok cls.

Record Adapter := mkAdapter {
  instance_of : adapter_class;
  file : BinaryIO }.

(** The dictionary built by [__init__]. *)
Definition initial_mail_data : Email :=
  mkEmail [] [] (Str []) [] [] [] [] [] [] [].

(** The call [cls(file)]: [__new__], then [__init__]. *)
Definition construct (cls : adapter_class) (f : BinaryIO) : M Adapter :=
  c <- lift (MailAdapter_new cls f) ;;
  update (fun _ => initial_mail_data) ;;;
  ret (mkAdapter c f).

(** [self.decode(read_attachments)], by the class of [self]. *)
Definition decode (L : Lib) (self : Adapter) (read_attachments : pyval)
    : M (option Email) :=
  match instance_of self with
  | EmlAdapter => EmlAdapter_decode L (file self) read_attachments
  | MsgAdapter => MsgAdapter_decode L (file self) read_attachments
  | MailAdapter => lift (raise NotImplementedError "")
  end.

(** A caller's [cls(file).decode(read_attachments)]. *)
Definition construct_then_decode (L : Lib) (cls : adapter_class)
    (f : BinaryIO) (read_attachments : pyval) : M (option Email) :=
  self <- construct cls f ;;
  decode L self read_attachments.

(** ** The loops read as functions on the record

    These say what each loop of the program leaves in [mail_data]; the
    lemmas below prove that the monadic code computes them. *)

Definition is_attachment (part : EmailMessage) : bool :=
  match get_content_disposition part with
  | Some d => str_eqb d (lit "attachment")
  | None => false
  end.

Definition has_filename (part : EmailMessage) : bool :=
  match get_filename part with Some _ => true | None => false end.

Definition record_eml_attachment (part : EmailMessage) (e : Email) : Email :=
  if is_attachment part then
    match get_filename part with
    | Some n =>
        append_attachment n (get_payload_decode part) (get_content_type part) e
    | None => e
    end
  else e.

Definition record_msg_attachment (L : Lib) (a : Attachment) (e : Email)
    : Email :=
  match shortFilename a with
  | Some n => append_attachment n (Some (data a)) (py_str (fst (guess_type L n))) e
  | None => e
  end.

(** The writes of [extract_metadata_from_eml_header] once the date parsed. *)
Definition write_header (L : Lib) (message : EmailMessage)
    (timestamp : datetime) (e : Email) : Email :=
  let hs := headers message in
  let author_information := identity (parseaddr L (get hs (lit "from") [])) in
  set_address_list (lit "cc")
    (map identity (getaddresses L (get_all hs (lit "cc"))))
    (set_address_list (lit "to")
       (map identity (getaddresses L (get_all hs (lit "to"))))
       (set_sender author_information
          (set_author author_information
             (set_subject (get hs (lit "subject") [])
                (set_received_on (Datetime timestamp) e))))).

(** The parts of a text-container message, and the attachments of a
    compound-binary message, that get recorded. *)
Definition eml_recorded (message : EmailMessage) : list EmailMessage :=
  filter (fun p => is_attachment p && has_filename p) (walk message).

Definition msg_recorded (mf : MsgFile) : list Attachment :=
  filter (fun a => match shortFilename a with Some _ => true | None => false end)
         (attachments mf).

Definition filename_of (o : option str) : str :=
  match o with Some n => n | None => [] end.

(** The two lines that turn one body part into text. *)
Definition part_text (L : Lib) (part : EmailMessage) : result str :=
  charset <~ get_charset part ;;
  decode_payload L part charset.

(** [last l], as an option. *)
Definition last_opt {A} (l : list A) : option A :=
  match rev l with x :: _ => Some x | [] => None end.

(** The body parts of a message, in walk order. *)
Definition body_parts (message : EmailMessage) : list EmailMessage :=
  filter is_body_part (walk message).

(** Decoding a list of parts in order; the first failure ends it. *)
Fixpoint texts_of (L : Lib) (parts : list EmailMessage) : result (list str) :=
  match parts with
  | [] => Ok []
  | p :: rest =>
      t <~ part_text L p ;;
      ts <~ texts_of L rest ;;
      Ok (t :: ts)
  end.

(** The fallback chain in the words of the specification: the first
    codec of the list that decodes the bytes, and the lossy ASCII
    decoding when none does. *)
Fixpoint first_success (cs : list codec) (b : bytes) : str :=
  match cs with
  | [] => decode_ascii_ignore b
  | c :: cs' =>
      match c b with
      | Some s => s
      | None => first_success cs' b
      end
  end.

Definition ENCODINGS_codecs : list codec :=
  [decode_ascii; decode_utf_8; decode_utf_8_sig; decode_latin_1;
   decode_cp1252].

(** ** Sample collaborators and files

    Small stand-ins for the libraries, used to run the program on
    concrete files.  [sample_parseaddr] agrees with [parseaddr] on a
    bare address and on [name <address>] with a one-word name;
    [sample_parse_date] knows one RFC 5322 date; [sample_guess_type]
    knows three extensions. *)

Definition blit (s : string) : bytes := list_byte_of_string s.

Fixpoint take_until (c : N) (s : str) : str :=
  match s with
  | [] => []
  | x :: s' => if N.eqb x c then [] else x :: take_until c s'
  end.

Fixpoint drop_through (c : N) (s : str) : option str :=
  match s with
  | [] => None
  | x :: s' => if N.eqb x c then Some s' else drop_through c s'
  end.

Definition sample_parseaddr (s : str) : str * str :=
  match drop_through 60 s with
  | Some rest => (rstrip (N.eqb 32) (take_until 60 s), take_until 62 rest)
  | None => ([], s)
  end.

Definition sample_date : str := lit "Mon, 20 Nov 1995 19:12:08 -0500".

Definition sample_parse_date (v : str) : option datetime :=
  if str_eqb v sample_date
  then Some (mkDatetime 1995 11 20 19 12 8 (Some (-18000)%Z))
  else None.

Definition sample_types_map : dict :=
  [ (lit ".pdf", lit "application/pdf"); (lit ".txt", lit "text/plain");
    (lit ".png", lit "image/png") ].

Definition sample_guess_type (url : str) : option str * option str :=
  (dict_get sample_types_map (lower (snd (splitext url))), None).

Definition sample_lib (message : EmailMessage) (mf : result MsgFile) : Lib :=
  mkLib (fun _ => message) (fun _ => mf) sample_parseaddr
        (map sample_parseaddr) sample_parse_date (fun _ => None)
        sample_guess_type.

Definition text_plain_params (charset : string) : option (list (str * str)) :=
  Some [(lit "text/plain", []); (lit "charset", lit charset)].

(** A leaf part of type [text/plain] with a charset parameter. *)
Definition text_part (hs : list (str * str)) (charset : string)
    (content : bytes) : EmailMessage :=
  mkEmailMessage hs (lit "text/plain") (lit "text") None
    (text_plain_params charset) None (Single content).

Definition hello_headers : list (str * str) :=
  [ (lit "Subject", lit "Hi"); (lit "From", lit "A <a@x.com>");
    (lit "Date", sample_date); (lit "To", lit "B <b@y.org>") ].

(** Subject Hi, From A, a date, one plain-text body. *)
Definition hello_message : EmailMessage :=
  text_part hello_headers "utf-8" (blit "hello").

(** The same message without its [Date] header. *)
Definition undated_message : EmailMessage :=
  text_part [(lit "Subject", lit "Hi"); (lit "From", lit "A <a@x.com>")]
    "utf-8" (blit "hello").

(** The same message with a [Date] value that is no date. *)
Definition misdated_message : EmailMessage :=
  text_part [(lit "Subject", lit "Hi"); (lit "Date", lit "garbage")]
    "utf-8" (blit "hello").

(** A dated message with no [Content-Type] header: [get_params()] is
    [None], the content type is the default [text/plain]. *)
Definition untyped_message : EmailMessage :=
  mkEmailMessage hello_headers (lit "text/plain") (lit "text") None None None
    (Single (blit "hello")).

Definition multipart_message (parts : list EmailMessage) : EmailMessage :=
  mkEmailMessage hello_headers (lit "multipart/mixed") (lit "multipart") None
    (Some [(lit "multipart/mixed", []); (lit "boundary", lit "X")]) None
    (Multipart parts).

Definition attachment_part (ctype : string) (fname : option str)
    (content : bytes) : EmailMessage :=
  mkEmailMessage [] (lit ctype) (lit "application") (Some (lit "attachment"))
    (Some [(lit ctype, [])]) fname (Single content).

(** Two text parts, [first] then [second]. *)
Definition two_text_message : EmailMessage :=
  multipart_message
    [text_part [] "utf-8" (blit "first"); text_part [] "utf-8" (blit "second")].

(** A text part, an attachment [f.pdf], and an attachment with no name. *)
Definition attached_message : EmailMessage :=
  multipart_message
    [ text_part [] "utf-8" (blit "see attached");
      attachment_part "application/pdf" (Some (lit "f.pdf")) (blit "%PDF");
      attachment_part "application/octet-stream" None (blit "anonymous") ].

(** A compound-binary message: a body that only [latin-1] decodes, padded
    with NUL, and three attachments: a known extension, an unknown one,
    and one without a short file name. *)
Definition sample_msg : MsgFile :=
  mkMsgFile hello_message (Some (inr [xe9; x74; xe9; x00; x00]))
    [ mkAttachment (Some (lit "report.pdf")) (blit "%PDF");
      mkAttachment (Some (lit "blob.zzz")) (blit "zz");
      mkAttachment None (blit "anonymous") ].

Definition eml_file : BinaryIO := mkBinaryIO (lit "mail.eml") [].
Definition msg_file : BinaryIO := mkBinaryIO (lit "mail.msg") [].

Definition fresh (out : list str) : World := mkWorld initial_mail_data out.

(** The record a call returned, if it returned one. *)
Definition returned (x : result (option Email) * World) : option Email :=
  match fst x with Ok o => o | Raise _ => None end.

(** ** Further definitions for the properties beyond the claims *)

(** [p] is [m] or a sub-part of [m] at any depth. *)
Inductive descendant (p : EmailMessage) : EmailMessage -> Prop :=
  | descendant_self : descendant p p
  | descendant_child (m c : EmailMessage) (parts : list EmailMessage) :
      payload m = Multipart parts -> In c parts -> descendant p c ->
      descendant p m.

(** A multi-part message whose attachment sits two levels down. *)
Definition nested_message : EmailMessage :=
  multipart_message
    [ text_part [] "utf-8" (blit "outer");
      multipart_message
        [ text_part [] "utf-8" (blit "inner");
          attachment_part "application/pdf" (Some (lit "deep.pdf"))
            (blit "%PDF") ] ].

(** A first text part that is not UTF-8, then the text [second]. *)
Definition bad_then_second_message : EmailMessage :=
  multipart_message
    [text_part [] "utf-8" [xff]; text_part [] "utf-8" (blit "second")].


(** A dated message with neither [Subject] nor [To] nor [Cc]. *)
Definition bare_message : EmailMessage :=
  text_part [(lit "Date", sample_date)] "utf-8" (blit "hello").

(** Two records agree on the fields written from the headers. *)
Definition header_fields_agree (r e : Email) : Prop :=
  subject r = subject e /\ received_on r = received_on e
  /\ sender r = sender e /\ author r = author e
  /\ to r = to e /\ cc r = cc e.

(** The message [m] with another payload. *)
Definition with_payload (m : EmailMessage) (pl : payload_of EmailMessage)
    : EmailMessage :=
  mkEmailMessage (headers m) (get_content_type m) (get_content_maintype m)
    (get_content_disposition m) (get_params m) (get_filename m) pl.

(** The byte order mark of UTF-8. *)
Definition BOM_UTF8 : bytes := [xef; xbb; xbf].

(** * Properties *)

Lemma str_eqb_eq (a b : str) : str_eqb a b = true <-> a = b.
Proof.
  revert b; induction a as [|x a IH]; intros [|y b]; simpl;
    try (split; [discriminate | congruence]); try tauto.
  rewrite andb_true_iff, N.eqb_eq, IH. split.
  - intros [-> ->]; reflexivity.
  - intros H; injection H; auto.
Qed.

Lemma str_eqb_refl (a : str) : str_eqb a a = true.
Proof. apply str_eqb_eq; reflexivity. Qed.

Lemma str_eqb_neq (a b : str) : str_eqb a b = false <-> a <> b.
Proof.
  rewrite <- str_eqb_eq. destruct (str_eqb a b); split; congruence.
Qed.

(** C1. A file whose extension is neither [.eml] nor [.msg] makes
    [__new__] raise [ValueError] for every class it is called on; the
    construction leaves the world as it was, and a caller's
    [cls(file).decode(...)] ends with that exception, not with [None]:
    no decoder runs. *)
Theorem C1_unsupported_extension_raises
    (L : Lib) (cls : adapter_class) (f : BinaryIO) (ra : pyval) (w : World) :
  snd (splitext (name f)) <> lit ".eml" ->
  snd (splitext (name f)) <> lit ".msg" ->
  let e := mkExn ValueError
             (lit "Unsupported mail extension " ++ snd (splitext (name f))
              ++ lit " given.") in
  MailAdapter_new cls f = Raise e
  /\ construct cls f w = (Raise e, w)
  /\ construct_then_decode L cls f ra w = (Raise e, w).
Proof.
  intros Heml Hmsg e.
  assert (Hnew : MailAdapter_new cls f = Raise e).
  { unfold MailAdapter_new, str_in. simpl existsb.
    apply str_eqb_neq in Heml, Hmsg. rewrite Heml, Hmsg. reflexivity. }
  assert (Hc : construct cls f w = (Raise e, w)).
  { unfold construct, bind, lift. rewrite Hnew. reflexivity. }
  repeat split; auto.
  unfold construct_then_decode, bind. rewrite Hc. reflexivity.
Qed.

Lemma C1_unsupported_extension_raises_witness :
  exists e,
    exn_cls e = ValueError
    /\ exn_msg e = lit "Unsupported mail extension .txt given."
    /\ construct_then_decode (sample_lib hello_message (Ok sample_msg))
         MailAdapter (mkBinaryIO (lit "notes.txt") []) (PyBool true) (fresh [])
       = (Raise e, fresh []).
Proof.
  eexists. split; [|split]; [| |
    apply (C1_unsupported_extension_raises
             (sample_lib hello_message (Ok sample_msg)) MailAdapter
             (mkBinaryIO (lit "notes.txt") []) (PyBool true) (fresh []));
    vm_compute; discriminate]; reflexivity.
Defined.

(** The two recognised extensions select the two decoders. *)
Lemma MailAdapter_new_dispatch (f : BinaryIO) :
  (snd (splitext (name f)) = lit ".eml" ->
   MailAdapter_new MailAdapter f = Ok EmlAdapter)
  /\ (snd (splitext (name f)) = lit ".msg" ->
      MailAdapter_new MailAdapter f = Ok MsgAdapter).
Proof.
  unfold MailAdapter_new. split; intros ->; reflexivity.
Qed.

(** ** The monadic code computes the functional reading *)

Lemma for_each_update {A} (l : list A) (f : A -> M unit)
    (g : A -> Email -> Email) :
  (forall x w, f x w = (Ok tt, mkWorld (g x (mail_data w)) (stdout w))) ->
  forall w,
    for_each l f w
    = (Ok tt, mkWorld (fold_left (fun e x => g x e) l (mail_data w)) (stdout w)).
Proof.
  intros Hf. induction l as [|x l IH]; intros w; simpl.
  - destruct w; reflexivity.
  - unfold bind. rewrite Hf, IH. reflexivity.
Qed.

Lemma extract_attachments_from_eml_eq (message : EmailMessage) (w : World) :
  extract_attachments_from_eml message w
  = (Ok tt,
     mkWorld (fold_left (fun e p => record_eml_attachment p e) (walk message)
                        (mail_data w))
             (stdout w)).
Proof.
  unfold extract_attachments_from_eml.
  apply (for_each_update (walk message) _ record_eml_attachment).
  intros part [md out]. unfold record_eml_attachment, is_attachment.
  destruct (get_content_disposition part) as [d|]; [|reflexivity].
  destruct (str_eqb d (lit "attachment")); [|reflexivity].
  destruct (get_filename part); reflexivity.
Qed.

Lemma extract_metadata_from_eml_header_eq (L : Lib) (message : EmailMessage)
    (w : World) :
  extract_metadata_from_eml_header L message w
  = match parsedate_to_datetime L (get (headers message) (lit "date") []) with
    | Raise e => (Raise e, w)
    | Ok timestamp =>
        (Ok tt, mkWorld (write_header L message timestamp (mail_data w))
                        (stdout w))
    end.
Proof.
  unfold extract_metadata_from_eml_header, bind, lift.
  destruct (parsedate_to_datetime L _); reflexivity.
Qed.

(** The whole of [EmlAdapter._decode_from_file]. *)
Lemma EmlAdapter_decode_from_file_eq (L : Lib) (f : BinaryIO) (ra : pyval)
    (w : World) :
  let message := message_from_binary_file L (read f) in
  EmlAdapter_decode_from_file L f ra w
  = match parsedate_to_datetime L (get (headers message) (lit "date") []) with
    | Raise e => (Raise e, w)
    | Ok timestamp =>
        let md1 := write_header L message timestamp (mail_data w) in
        match extract_body_from_eml L message with
        | Raise e => (Raise e, mkWorld md1 (stdout w))
        | Ok b =>
            let md2 := set_body b md1 in
            let md3 :=
              if is_True ra
              then fold_left (fun e p => record_eml_attachment p e)
                             (walk message) md2
              else md2 in
            (Ok md3, mkWorld md3 (stdout w))
        end
    end.
Proof.
  intros message. unfold EmlAdapter_decode_from_file. fold message.
  unfold bind at 1. rewrite extract_metadata_from_eml_header_eq.
  destruct (parsedate_to_datetime L _) as [ts|e]; [|reflexivity].
  unfold bind at 1, lift.
  destruct (extract_body_from_eml L message) as [b|e]; [|reflexivity].
  unfold bind at 1, update at 1. cbv beta iota. unfold bind at 1.
  destruct (is_True ra).
  - rewrite extract_attachments_from_eml_eq. reflexivity.
  - reflexivity.
Qed.

Lemma msg_attachments_eq (L : Lib) (l : list Attachment) (w : World) :
  for_each l (fun attachment =>
      match shortFilename attachment with
      | Some name =>
          update (append_attachment name (Some (data attachment))
                    (py_str (fst (guess_type L name))))
      | None => ret tt
      end) w
  = (Ok tt,
     mkWorld (fold_left (fun e a => record_msg_attachment L a e) l (mail_data w))
             (stdout w)).
Proof.
  apply (for_each_update l _ (record_msg_attachment L)).
  intros a [md out]. unfold record_msg_attachment.
  destruct (shortFilename a); reflexivity.
Qed.

(** The whole of [MsgAdapter._decode_from_file]. *)
Lemma MsgAdapter_decode_from_file_eq (L : Lib) (f : BinaryIO) (ra : pyval)
    (w : World) :
  MsgAdapter_decode_from_file L f ra w
  = match Message L (read f) with
    | Raise e => (Raise e, w)
    | Ok message =>
        match parsedate_to_datetime L
                (get (headers (header message)) (lit "date") []) with
        | Raise e => (Raise e, w)
        | Ok timestamp =>
            let md1 := write_header L (header message) timestamp (mail_data w) in
            match
              match msg_body message with
              | Some b =>
                  s <~ decode_msg_body L b ENCODINGS ;;
                  Ok (set_body (strip_nul s) md1)
              | None => Ok md1
              end
            with
            | Raise e => (Raise e, mkWorld md1 (stdout w))
            | Ok md2 =>
                let md3 :=
                  if is_True ra
                  then fold_left (fun e a => record_msg_attachment L a e)
                                 (attachments message) md2
                  else md2 in
                (Ok md3, mkWorld md3 (stdout w))
            end
        end
    end.
Proof.
  unfold MsgAdapter_decode_from_file. unfold bind at 1, lift at 1.
  destruct (Message L (read f)) as [message|e]; [|reflexivity].
  unfold bind at 1. rewrite extract_metadata_from_eml_header_eq.
  destruct (parsedate_to_datetime L _) as [ts|e]; [|reflexivity].
  unfold bind at 1.
  destruct (msg_body message) as [b|].
  - unfold bind at 1, lift, rbind.
    destruct (decode_msg_body L b ENCODINGS) as [s|e]; [|reflexivity].
    unfold update at 1. cbv beta iota. unfold bind at 1.
    destruct (is_True ra).
    + rewrite msg_attachments_eq. reflexivity.
    + reflexivity.
  - unfold ret at 1, rbind. unfold bind at 1.
    destruct (is_True ra).
    + rewrite msg_attachments_eq. reflexivity.
    + reflexivity.
Qed.

(** ** Which exceptions the decoders can meet *)

Lemma parsedate_to_datetime_Exception (L : Lib) (v : str) (e : exn) :
  parsedate_to_datetime L v = Raise e -> is_Exception e = true.
Proof.
  unfold parsedate_to_datetime.
  destruct (match v with [] => None | _ => parse_date L v end);
    intros H; inversion H; reflexivity.
Qed.

Lemma get_charset_Exception (part : EmailMessage) (e : exn) :
  get_charset part = Raise e -> is_Exception e = true.
Proof.
  unfold get_charset, subscript_params, raise.
  destruct (get_params part) as [ps|].
  - destruct (nth_error ps 1); simpl; intros H; inversion H.
  - simpl. intros H; inversion H; reflexivity.
Qed.

Lemma bytes_decode_Exception (L : Lib) (b : bytes) (enc : str) (e : exn) :
  bytes_decode L b enc = Raise e -> is_Exception e = true.
Proof.
  unfold bytes_decode, raise.
  destruct (lookup_codec L enc) as [c|].
  - destruct (c b); intros H; inversion H; reflexivity.
  - intros H; inversion H; reflexivity.
Qed.

Lemma part_text_Exception (L : Lib) (part : EmailMessage) (e : exn) :
  part_text L part = Raise e -> is_Exception e = true.
Proof.
  unfold part_text, rbind.
  destruct (get_charset part) as [cs|e0] eqn:Hcs.
  - unfold decode_payload, raise.
    destruct (get_payload_decode part).
    + apply bytes_decode_Exception.
    + intros H; inversion H; reflexivity.
  - intros H; inversion H; subst. eapply get_charset_Exception; eauto.
Qed.

Lemma body_loop_Exception (L : Lib) (parts : list EmailMessage) (b0 : str)
    (e : exn) :
  body_loop L parts b0 = Raise e -> is_Exception e = true.
Proof.
  revert b0. induction parts as [|p parts IH]; intros b0; simpl.
  - discriminate.
  - destruct (is_body_part p); [|apply IH].
    pose proof (part_text_Exception L p) as Hp. unfold part_text in Hp.
    unfold rbind in *.
    destruct (get_charset p) as [cs|e0].
    + destruct (decode_payload L p cs) as [t|e1]; [apply IH|].
      intros H; inversion H; subst. apply Hp; reflexivity.
    + intros H; inversion H; subst. apply Hp; reflexivity.
Qed.

Lemma extract_body_from_eml_Exception (L : Lib) (message : EmailMessage)
    (e : exn) :
  extract_body_from_eml L message = Raise e -> is_Exception e = true.
Proof.
  unfold extract_body_from_eml.
  destruct (is_multipart message).
  - apply body_loop_Exception.
  - apply (part_text_Exception L message).
Qed.

Lemma EmlAdapter_decode_from_file_Raise (L : Lib) (f : BinaryIO) (ra : pyval)
    (w w' : World) (e : exn) :
  EmlAdapter_decode_from_file L f ra w = (Raise e, w') ->
  is_Exception e = true /\ stdout w' = stdout w.
Proof.
  rewrite EmlAdapter_decode_from_file_eq. cbv zeta.
  destruct (parsedate_to_datetime L _) as [ts|e0] eqn:Hd.
  - destruct (extract_body_from_eml L _) as [b|e1] eqn:Hb.
    + discriminate.
    + intros H; inversion H; subst. split; [|reflexivity].
      eapply extract_body_from_eml_Exception; eauto.
  - intros H; inversion H; subst. split; [|reflexivity].
    eapply parsedate_to_datetime_Exception; eauto.
Qed.

Lemma EmlAdapter_decode_from_file_Ok (L : Lib) (f : BinaryIO) (ra : pyval)
    (w w' : World) (r : Email) :
  EmlAdapter_decode_from_file L f ra w = (Ok r, w') ->
  mail_data w' = r /\ stdout w' = stdout w.
Proof.
  rewrite EmlAdapter_decode_from_file_eq. cbv zeta.
  destruct (parsedate_to_datetime L _); [|discriminate].
  destruct (extract_body_from_eml L _); [|discriminate].
  intros H; inversion H; subst. split; reflexivity.
Qed.

Lemma MsgAdapter_decode_from_file_stdout (L : Lib) (f : BinaryIO) (ra : pyval)
    (w w' : World) (r : result Email) :
  MsgAdapter_decode_from_file L f ra w = (r, w') -> stdout w' = stdout w.
Proof.
  rewrite MsgAdapter_decode_from_file_eq. cbv zeta.
  destruct (Message L (read f)) as [m|]; [|intros H; inversion H; reflexivity].
  destruct (parsedate_to_datetime L _); [|intros H; inversion H; reflexivity].
  match goal with |- context [match ?x with Ok _ => _ | Raise _ => _ end] =>
    destruct x end; intros H; inversion H; reflexivity.
Qed.

(** What [decode] makes of the outcome of [_decode_from_file]. *)
Lemma EmlAdapter_decode_eq (L : Lib) (f : BinaryIO) (ra : pyval) (w : World) :
  EmlAdapter_decode L f ra w
  = match EmlAdapter_decode_from_file L f ra w with
    | (Ok r, w') => (Ok (Some r), w')
    | (Raise e, w') =>
        if is_Exception e then (Ok None, w') else (Raise e, w')
    end.
Proof.
  unfold EmlAdapter_decode, try_except_Exception, bind, ret.
  destruct (EmlAdapter_decode_from_file L f ra w) as [[r|e] w']; reflexivity.
Qed.

Lemma MsgAdapter_decode_eq (L : Lib) (f : BinaryIO) (ra : pyval) (w : World) :
  MsgAdapter_decode L f ra w
  = match MsgAdapter_decode_from_file L f ra w with
    | (Ok r, w') => (Ok (Some r), w')
    | (Raise e, w') =>
        if is_Exception e
        then (Ok None, mkWorld (mail_data w') (stdout w' ++ [exn_msg e]))
        else (Raise e, w')
    end.
Proof.
  unfold MsgAdapter_decode, try_except_Exception, bind, ret, print.
  destruct (MsgAdapter_decode_from_file L f ra w) as [[r|e] w']; reflexivity.
Qed.

(** ** The encoding fallback chain *)

Lemma decode_loop_first_success (L : Lib) (b : bytes) (encodings : list str)
    (cs : list codec) :
  Forall2 (fun enc c => lookup_codec L enc = Some c) encodings cs ->
  decode_loop L b encodings = Ok (first_success cs b).
Proof.
  induction 1 as [|enc c encs cs' Hc _ IH]; simpl.
  - reflexivity.
  - unfold bytes_decode. rewrite Hc.
    destruct (c b); [reflexivity | simpl; exact IH].
Qed.

Lemma ENCODINGS_lookup (L : Lib) :
  Forall2 (fun enc c => lookup_codec L enc = Some c) ENCODINGS ENCODINGS_codecs.
Proof. repeat constructor. Qed.

(** [latin-1] decodes every byte string, so the chain over [ENCODINGS]
    stops there at the latest. *)
Lemma first_success_ENCODINGS (b : bytes) :
  first_success ENCODINGS_codecs b
  = match decode_ascii b with
    | Some s => s
    | None =>
        match decode_utf_8 b with
        | Some s => s
        | None =>
            match decode_utf_8_sig b with
            | Some s => s
            | None => map Byte.to_N b
            end
        end
    end.
Proof. reflexivity. Qed.

Lemma decode_msg_body_ENCODINGS (L : Lib) (body : str + bytes) :
  decode_msg_body L body ENCODINGS
  = Ok (match body with
        | inl s => s
        | inr b => first_success ENCODINGS_codecs b
        end).
Proof.
  destruct body as [s|b]; [reflexivity|].
  unfold decode_msg_body.
  apply decode_loop_first_success, ENCODINGS_lookup.
Qed.

(** ** Stripping *)

Section StripFacts.
Context {A : Type} (drop : A -> bool).

Lemma lstrip_decomp (l : list A) :
  exists pre, l = pre ++ lstrip drop l /\ forallb drop pre = true.
Proof.
  induction l as [|x l [pre [Hl Hp]]]; simpl.
  - exists []; split; reflexivity.
  - destruct (drop x) eqn:Hx.
    + exists (x :: pre); simpl. rewrite Hx, Hp. split; [congruence | reflexivity].
    + exists []; split; reflexivity.
Qed.

Lemma lstrip_head (l : list A) (x : A) :
  hd_error (lstrip drop l) = Some x -> drop x = false.
Proof.
  induction l as [|y l IH]; simpl; [discriminate|].
  destruct (drop y) eqn:Hy; [exact IH|].
  simpl. intros H; inversion H; subst; exact Hy.
Qed.

Lemma forallb_rev (l : list A) :
  forallb drop l = true -> forallb drop (rev l) = true.
Proof.
  rewrite !forallb_forall. intros H x Hx. apply H, in_rev, Hx.
Qed.

Lemma rstrip_decomp (l : list A) :
  exists post, l = rstrip drop l ++ post /\ forallb drop post = true.
Proof.
  unfold rstrip. destruct (lstrip_decomp (rev l)) as [pre [Hl Hp]].
  exists (rev pre). split; [|apply forallb_rev, Hp].
  rewrite <- rev_app_distr, <- Hl, rev_involutive. reflexivity.
Qed.

Lemma rstrip_last (l : list A) (x : A) :
  last_opt (rstrip drop l) = Some x -> drop x = false.
Proof.
  unfold last_opt, rstrip. rewrite rev_involutive.
  intros H. apply (lstrip_head (rev l)).
  destruct (lstrip drop (rev l)); simpl; congruence.
Qed.

Lemma lstrip_last (l : list A) (x : A) :
  last_opt (lstrip drop l) = Some x -> last_opt l = Some x.
Proof.
  destruct (lstrip_decomp l) as [pre [Hl _]].
  unfold last_opt. intros H. rewrite Hl at 1. rewrite rev_app_distr.
  destruct (rev (lstrip drop l)); simpl in *; congruence.
Qed.

(** [strip] removes a run of dropped elements at each end and leaves
    none at either end. *)
Lemma strip_spec (l : list A) :
  (exists pre post,
      l = pre ++ strip drop l ++ post
      /\ forallb drop pre = true /\ forallb drop post = true)
  /\ (forall x, hd_error (strip drop l) = Some x -> drop x = false)
  /\ (forall x, last_opt (strip drop l) = Some x -> drop x = false).
Proof.
  unfold strip. split; [|split].
  - destruct (rstrip_decomp l) as [post [Hl Hpost]].
    destruct (lstrip_decomp (rstrip drop l)) as [pre [Hr Hpre]].
    exists pre, post. split; [|split; assumption].
    rewrite app_assoc, <- Hr. exact Hl.
  - intros x. apply lstrip_head.
  - intros x H. apply (rstrip_last l), lstrip_last, H.
Qed.
End StripFacts.

Lemma MsgAdapter_decode_from_file_Raise (L : Lib) (f : BinaryIO) (ra : pyval)
    (w w' : World) (e : exn) :
  MsgAdapter_decode_from_file L f ra w = (Raise e, w') ->
  Message L (read f) = Raise e \/ is_Exception e = true.
Proof.
  rewrite MsgAdapter_decode_from_file_eq. cbv zeta.
  destruct (Message L (read f)) as [m|e0].
  - destruct (parsedate_to_datetime L _) as [ts|e1] eqn:Hd.
    + destruct (msg_body m) as [b|].
      * rewrite decode_msg_body_ENCODINGS. simpl. discriminate.
      * discriminate.
    + intros H; inversion H; subst. right.
      eapply parsedate_to_datetime_Exception; eauto.
  - intros H; inversion H; subst. left; reflexivity.
Qed.

(** C2. Whatever exception [_decode_from_file] ends with, [decode]
    returns [None]: the text decoder without printing, the
    compound-binary decoder after printing the exception.  The text
    decoder never raises, and neither does the other one as long as the
    container parser raises exceptions of class [Exception]. *)
Theorem C2_decode_returns_None_on_exception
    (L : Lib) (f : BinaryIO) (ra : pyval) (w : World) :
  (forall e w',
      EmlAdapter_decode_from_file L f ra w = (Raise e, w') ->
      EmlAdapter_decode L f ra w = (Ok None, w') /\ stdout w' = stdout w)
  /\ (forall e w',
      MsgAdapter_decode_from_file L f ra w = (Raise e, w') ->
      is_Exception e = true ->
      MsgAdapter_decode L f ra w
      = (Ok None, mkWorld (mail_data w') (stdout w ++ [exn_msg e])))
  /\ (exists o w',
      EmlAdapter_decode L f ra w = (Ok o, w') /\ stdout w' = stdout w)
  /\ ((forall e, Message L (read f) = Raise e -> is_Exception e = true) ->
      exists o w', MsgAdapter_decode L f ra w = (Ok o, w')).
Proof.
  repeat split.
  - rewrite EmlAdapter_decode_eq, H.
    apply EmlAdapter_decode_from_file_Raise in H as [-> _]. reflexivity.
  - apply EmlAdapter_decode_from_file_Raise in H as [_ ->]. reflexivity.
  - intros e w' H He. rewrite MsgAdapter_decode_eq, H, He.
    apply MsgAdapter_decode_from_file_stdout in H. rewrite H. reflexivity.
  - rewrite EmlAdapter_decode_eq.
    destruct (EmlAdapter_decode_from_file L f ra w) as [[r|e] w'] eqn:H.
    + apply EmlAdapter_decode_from_file_Ok in H as [_ H]. eauto.
    + apply EmlAdapter_decode_from_file_Raise in H as [-> H]. eauto.
  - intros HM. rewrite MsgAdapter_decode_eq.
    destruct (MsgAdapter_decode_from_file L f ra w) as [[r|e] w'] eqn:H.
    + eauto.
    + apply MsgAdapter_decode_from_file_Raise in H as [H|H];
        [apply HM in H|]; rewrite H; eauto.
Qed.

Lemma C2_decode_returns_None_on_exception_witness :
  EmlAdapter_decode (sample_lib undated_message (raise OtherException "not an OLE2 file"))
    eml_file (PyBool true) (fresh [])
  = (Ok None, fresh [])
  /\ MsgAdapter_decode (sample_lib undated_message (raise OtherException "not an OLE2 file"))
       msg_file (PyBool true) (fresh [])
     = (Ok None, mkWorld initial_mail_data [lit "not an OLE2 file"]).
Proof.
  split.
  - destruct (C2_decode_returns_None_on_exception
                (sample_lib undated_message (raise OtherException "not an OLE2 file"))
                eml_file (PyBool true) (fresh [])) as (H1 & _).
    apply (H1 (mkExn ValueError
                 (lit "Invalid date value or format " ++ [34; 34]%N))).
    reflexivity.
  - destruct (C2_decode_returns_None_on_exception
                (sample_lib undated_message (raise OtherException "not an OLE2 file"))
                msg_file (PyBool true) (fresh [])) as (_ & H2 & _).
    apply (H2 (mkExn OtherException (lit "not an OLE2 file")) (fresh []));
      reflexivity.
Defined.

(** ** What the attachment loops leave in the record *)

Lemma fold_record_eml_attachment (parts : list EmailMessage) (e : Email) :
  let kept := filter (fun p => is_attachment p && has_filename p) parts in
  fold_left (fun e p => record_eml_attachment p e) parts e
  = mkEmail (subject e) (body e) (received_on e) (sender e) (author e) (to e)
      (cc e)
      (attachment_names e ++ map (fun p => filename_of (get_filename p)) kept)
      (attachment_binaries e ++ map get_payload_decode kept)
      (attachment_types e ++ map get_content_type kept).
Proof.
  revert e. induction parts as [|p parts IH]; intros e; simpl.
  - rewrite !app_nil_r. destruct e; reflexivity.
  - rewrite IH. cbv zeta. unfold record_eml_attachment, has_filename.
    destruct (is_attachment p); [|reflexivity].
    destruct (get_filename p) as [n|] eqn:Hn; [|reflexivity].
    simpl. rewrite Hn, <- !app_assoc. reflexivity.
Qed.

Lemma fold_record_msg_attachment (L : Lib) (l : list Attachment) (e : Email) :
  let kept :=
    filter (fun a => match shortFilename a with Some _ => true | None => false end)
           l in
  fold_left (fun e a => record_msg_attachment L a e) l e
  = mkEmail (subject e) (body e) (received_on e) (sender e) (author e) (to e)
      (cc e)
      (attachment_names e ++ map (fun a => filename_of (shortFilename a)) kept)
      (attachment_binaries e ++ map (fun a => Some (data a)) kept)
      (attachment_types e
       ++ map (fun a => py_str (fst (guess_type L (filename_of (shortFilename a)))))
              kept).
Proof.
  revert e. induction l as [|a l IH]; intros e; simpl.
  - rewrite !app_nil_r. destruct e; reflexivity.
  - rewrite IH. cbv zeta. unfold record_msg_attachment.
    destruct (shortFilename a) as [n|] eqn:Hn; [|reflexivity].
    simpl. rewrite Hn, <- !app_assoc. reflexivity.
Qed.

(** The record a successful text-container decode returns. *)
Lemma EmlAdapter_decode_Some (L : Lib) (f : BinaryIO) (ra : pyval)
    (w w' : World) (r : Email) :
  EmlAdapter_decode L f ra w = (Ok (Some r), w') ->
  let message := message_from_binary_file L (read f) in
  exists timestamp b,
    parsedate_to_datetime L (get (headers message) (lit "date") [])
    = Ok timestamp
    /\ extract_body_from_eml L message = Ok b
    /\ r = (let md2 := set_body b (write_header L message timestamp (mail_data w)) in
            if is_True ra
            then fold_left (fun e p => record_eml_attachment p e) (walk message) md2
            else md2).
Proof.
  rewrite EmlAdapter_decode_eq, EmlAdapter_decode_from_file_eq. cbv zeta.
  destruct (parsedate_to_datetime L _) as [ts|e].
  - destruct (extract_body_from_eml L _) as [b|e].
    + intros H; inversion H; subst. eauto.
    + destruct (is_Exception e); discriminate.
  - destruct (is_Exception e); discriminate.
Qed.

(** The record a successful compound-binary decode returns. *)
Lemma MsgAdapter_decode_Some (L : Lib) (f : BinaryIO) (ra : pyval)
    (w w' : World) (r : Email) :
  MsgAdapter_decode L f ra w = (Ok (Some r), w') ->
  exists message timestamp,
    Message L (read f) = Ok message
    /\ parsedate_to_datetime L (get (headers (header message)) (lit "date") [])
       = Ok timestamp
    /\ r = (let md1 := write_header L (header message) timestamp (mail_data w) in
            let md2 :=
              match msg_body message with
              | Some b =>
                  set_body
                    (strip_nul
                       (match b with
                        | inl s => s
                        | inr b => first_success ENCODINGS_codecs b
                        end)) md1
              | None => md1
              end in
            if is_True ra
            then fold_left (fun e a => record_msg_attachment L a e)
                           (attachments message) md2
            else md2).
Proof.
  rewrite MsgAdapter_decode_eq, MsgAdapter_decode_from_file_eq. cbv zeta.
  destruct (Message L (read f)) as [m|e].
  - destruct (parsedate_to_datetime L _) as [ts|e] eqn:Hd.
    + destruct (msg_body m) as [b|] eqn:Hb.
      * rewrite decode_msg_body_ENCODINGS. unfold rbind.
        intros H; inversion H; subst. exists m, ts.
        split; [reflexivity|]. split; [exact Hd|]. rewrite Hb. reflexivity.
      * unfold rbind. intros H; inversion H; subst. exists m, ts.
        split; [reflexivity|]. split; [exact Hd|]. rewrite Hb. reflexivity.
    + destruct (is_Exception e); discriminate.
  - destruct (is_Exception e); discriminate.
Qed.

(** [first_success] returns what the first codec that decodes the bytes
    returns, and the lossy ASCII decoding when every codec fails. *)
Lemma first_success_spec (cs : list codec) (b : bytes) :
  (exists i c,
      nth_error cs i = Some c
      /\ c b = Some (first_success cs b)
      /\ forall j c', (j < i)%nat -> nth_error cs j = Some c' -> c' b = None)
  \/ ((forall c, In c cs -> c b = None)
      /\ first_success cs b = decode_ascii_ignore b).
Proof.
  induction cs as [|c cs IH]; simpl.
  - right. split; [intros c [] | reflexivity].
  - destruct (c b) as [s|] eqn:Hc.
    + left. exists 0%nat, c. repeat split; auto. intros j c' Hj; lia.
    + destruct IH as [(i & c1 & Hi & Hs & Hlt) | [Hall Hs]].
      * left. exists (S i), c1. repeat split; auto.
        intros [|j] c' Hj Hn; simpl in Hn.
        -- inversion Hn; subst; exact Hc.
        -- apply (Hlt j); [lia | exact Hn].
      * right. split; [|exact Hs].
        intros c' [<-|Hin]; auto.
Qed.

(** C6. On bytes, [decode_msg_body] with the default encodings returns
    what the first of ascii, utf-8, utf-8-sig, latin-1, cp1252 (in that
    order) that decodes them returns; with any list of known encodings
    it returns the first success, or the lossy ASCII decoding when all
    fail; with the default list it never raises.  The body a
    compound-binary decode stores is that text with the NUL characters
    at both ends removed. *)
Theorem C6_decode_msg_body_fallback (L : Lib) :
  (forall body, exists s, decode_msg_body L body ENCODINGS = Ok s)
  /\ (forall b,
         decode_msg_body L (inr b) ENCODINGS
         = Ok (first_success
                 [decode_ascii; decode_utf_8; decode_utf_8_sig; decode_latin_1;
                  decode_cp1252] b))
  /\ (forall b encodings cs,
         Forall2 (fun enc c => lookup_codec L enc = Some c) encodings cs ->
         decode_msg_body L (inr b) encodings = Ok (first_success cs b)
         /\ ((exists i c,
                 nth_error cs i = Some c
                 /\ c b = Some (first_success cs b)
                 /\ forall j c', (j < i)%nat -> nth_error cs j = Some c' ->
                                 c' b = None)
             \/ ((forall c, In c cs -> c b = None)
                 /\ first_success cs b = decode_ascii_ignore b)))
  /\ Forall2 (fun enc c => lookup_codec L enc = Some c) ENCODINGS
       [decode_ascii; decode_utf_8; decode_utf_8_sig; decode_latin_1;
        decode_cp1252]
  /\ (forall f ra w r w' message b,
         MsgAdapter_decode L f ra w = (Ok (Some r), w') ->
         Message L (read f) = Ok message ->
         msg_body message = Some b ->
         exists s,
           decode_msg_body L b ENCODINGS = Ok s
           /\ body r = strip_nul s
           /\ (exists pre post,
                  s = pre ++ body r ++ post
                  /\ forallb is_nul pre = true /\ forallb is_nul post = true)
           /\ hd_error (body r) <> Some 0%N
           /\ last_opt (body r) <> Some 0%N).
Proof.
  split; [|split; [|split; [|split]]].
  - intros body. rewrite decode_msg_body_ENCODINGS. eauto.
  - intros b. apply (decode_msg_body_ENCODINGS L (inr b)).
  - intros b encodings cs H. split.
    + apply decode_loop_first_success, H.
    + apply first_success_spec.
  - apply ENCODINGS_lookup.
  - intros f ra w r w' message b Hdec Hm Hb.
    apply MsgAdapter_decode_Some in Hdec
      as (m & ts & Hm' & _ & Hr).
    rewrite Hm in Hm'. inversion Hm'; subst m. rewrite Hb in Hr.
    rewrite decode_msg_body_ENCODINGS. eexists. split; [reflexivity|].
    set (s := match b with inl s => s | inr b0 => first_success ENCODINGS_codecs b0 end) in *.
    assert (Hbody : body r = strip_nul s).
    { rewrite Hr. cbv zeta. destruct (is_True ra); [|reflexivity].
      rewrite fold_record_msg_attachment. reflexivity. }
    rewrite Hbody. split; [reflexivity|].
    destruct (strip_spec is_nul s) as (Hdecomp & Hhd & Hlast).
    split; [exact Hdecomp|]. split.
    + intros H. apply Hhd in H. discriminate.
    + intros H. apply Hlast in H. discriminate.
Qed.

Lemma C6_decode_msg_body_fallback_witness :
  decode_msg_body (sample_lib hello_message (Ok sample_msg))
    (inr [xff; x41; xfe]) [lit "ascii"; lit "utf-8"]
  = Ok [65%N]
  /\ exists r w',
      MsgAdapter_decode (sample_lib hello_message (Ok sample_msg)) msg_file
        (PyBool false) (fresh [])
      = (Ok (Some r), w')
      /\ body r = [233; 116; 233]%N.
Proof.
  pose proof (C6_decode_msg_body_fallback
                (sample_lib hello_message (Ok sample_msg)))
    as (_ & _ & Hchain & _ & Hstrip).
  split.
  - apply (Hchain [xff; x41; xfe] [lit "ascii"; lit "utf-8"]
             [decode_ascii; decode_utf_8]).
    repeat constructor.
  - destruct (Hstrip msg_file (PyBool false) (fresh []) _ _ sample_msg
                (inr [xe9; x74; xe9; x00; x00]) eq_refl eq_refl eq_refl)
      as (s & Hs & Hb & _).
    eexists. eexists. split; [reflexivity|].
    rewrite Hb. inversion Hs. reflexivity.
Defined.

(** ** A caller's construct-then-decode *)

Lemma construct_then_decode_Some (L : Lib) (cls : adapter_class)
    (f : BinaryIO) (ra : pyval) (w0 w' : World) (r : Email) :
  construct_then_decode L cls f ra w0 = (Ok (Some r), w') ->
  let w := mkWorld initial_mail_data (stdout w0) in
  EmlAdapter_decode L f ra w = (Ok (Some r), w')
  \/ MsgAdapter_decode L f ra w = (Ok (Some r), w').
Proof.
  unfold construct_then_decode, construct, bind, lift, update, ret, decode.
  destruct (MailAdapter_new cls f) as [c|e]; [|discriminate].
  simpl. destruct c; auto. discriminate.
Qed.

Lemma eml_recorded_In (message p : EmailMessage) :
  In p (eml_recorded message)
  <-> In p (walk message) /\ is_attachment p = true
      /\ exists n, get_filename p = Some n.
Proof.
  unfold eml_recorded, has_filename. rewrite filter_In, andb_true_iff.
  destruct (get_filename p) as [n|].
  - split; [intros (? & ? & _); eauto | intros (? & ? & _); auto].
  - split; [intros (_ & _ & H); discriminate
           | intros (_ & _ & n & H); discriminate].
Qed.

Lemma msg_recorded_In (mf : MsgFile) (a : Attachment) :
  In a (msg_recorded mf)
  <-> In a (attachments mf) /\ exists n, shortFilename a = Some n.
Proof.
  unfold msg_recorded. rewrite filter_In.
  destruct (shortFilename a) as [n|].
  - split; [intros (? & _); eauto | intros (? & _); auto].
  - split; [intros (_ & H); discriminate | intros (_ & n & H); discriminate].
Qed.

(** The attachment lists after a successful decode, for each decoder. *)
Lemma EmlAdapter_decode_attachments (L : Lib) (f : BinaryIO) (ra : pyval)
    (w w' : World) (r : Email) :
  EmlAdapter_decode L f ra w = (Ok (Some r), w') ->
  let kept :=
    if is_True ra then eml_recorded (message_from_binary_file L (read f))
    else [] in
  attachment_names r
  = attachment_names (mail_data w)
    ++ map (fun p => filename_of (get_filename p)) kept
  /\ attachment_binaries r
     = attachment_binaries (mail_data w) ++ map get_payload_decode kept
  /\ attachment_types r
     = attachment_types (mail_data w) ++ map get_content_type kept.
Proof.
  intros H. apply EmlAdapter_decode_Some in H as (ts & b & _ & _ & ->).
  cbv zeta. destruct (is_True ra).
  - rewrite fold_record_eml_attachment. simpl. auto.
  - simpl. rewrite !app_nil_r. auto.
Qed.

Lemma MsgAdapter_decode_attachments (L : Lib) (f : BinaryIO) (ra : pyval)
    (w w' : World) (r : Email) :
  MsgAdapter_decode L f ra w = (Ok (Some r), w') ->
  exists message,
    Message L (read f) = Ok message
    /\ let kept := if is_True ra then msg_recorded message else [] in
       attachment_names r
       = attachment_names (mail_data w)
         ++ map (fun a => filename_of (shortFilename a)) kept
       /\ attachment_binaries r
          = attachment_binaries (mail_data w)
            ++ map (fun a => Some (data a)) kept
       /\ attachment_types r
          = attachment_types (mail_data w)
            ++ map (fun a =>
                      py_str (fst (guess_type L (filename_of (shortFilename a)))))
                   kept.
Proof.
  intros H. apply MsgAdapter_decode_Some in H as (m & ts & Hm & _ & ->).
  exists m. split; [exact Hm|]. cbv zeta. destruct (is_True ra).
  - rewrite fold_record_msg_attachment.
    destruct (msg_body m); simpl; auto.
  - destruct (msg_body m); simpl; rewrite !app_nil_r; auto.
Qed.

(** C7. A record returned by either decoder extends the three attachment
    lists it started from by the names, the binaries and the types of
    one and the same list of items: the parts of the walk with
    disposition [attachment] and a file name, or the attachments with a
    short file name.  From a freshly constructed adapter the three lists
    have one length. *)
Theorem C7_attachment_lists_aligned
    (L : Lib) (f : BinaryIO) (ra : pyval) (w w' : World) (r : Email) :
  (EmlAdapter_decode L f ra w = (Ok (Some r), w') ->
   let message := message_from_binary_file L (read f) in
   let kept := if is_True ra then eml_recorded message else [] in
   attachment_names r
   = attachment_names (mail_data w)
     ++ map (fun p => filename_of (get_filename p)) kept
   /\ attachment_binaries r
      = attachment_binaries (mail_data w) ++ map get_payload_decode kept
   /\ attachment_types r
      = attachment_types (mail_data w) ++ map get_content_type kept
   /\ forall p, In p (eml_recorded message)
                <-> In p (walk message) /\ is_attachment p = true
                    /\ exists n, get_filename p = Some n)
  /\ (MsgAdapter_decode L f ra w = (Ok (Some r), w') ->
      exists message,
        Message L (read f) = Ok message
        /\ let kept := if is_True ra then msg_recorded message else [] in
           attachment_names r
           = attachment_names (mail_data w)
             ++ map (fun a => filename_of (shortFilename a)) kept
           /\ attachment_binaries r
              = attachment_binaries (mail_data w)
                ++ map (fun a => Some (data a)) kept
           /\ attachment_types r
              = attachment_types (mail_data w)
                ++ map (fun a =>
                          py_str (fst (guess_type L
                                         (filename_of (shortFilename a)))))
                       kept
           /\ forall a, In a (msg_recorded message)
                        <-> In a (attachments message)
                            /\ exists n, shortFilename a = Some n)
  /\ (forall cls w0,
         construct_then_decode L cls f ra w0 = (Ok (Some r), w') ->
         List.length (attachment_names r) = List.length (attachment_binaries r)
         /\ List.length (attachment_binaries r)
            = List.length (attachment_types r)).
Proof.
  split; [|split].
  - intros H. apply EmlAdapter_decode_attachments in H as (Hn & Hb & Ht).
    split; [exact Hn|]. split; [exact Hb|]. split; [exact Ht|].
    intros p. apply eml_recorded_In.
  - intros H. apply MsgAdapter_decode_attachments in H
      as (m & Hm & Hn & Hb & Ht).
    exists m. split; [exact Hm|]. split; [exact Hn|]. split; [exact Hb|].
    split; [exact Ht|]. intros a. apply msg_recorded_In.
  - intros cls w0 H. apply construct_then_decode_Some in H as [H|H].
    + apply EmlAdapter_decode_attachments in H as (-> & -> & ->).
      simpl. rewrite !length_map. auto.
    + apply MsgAdapter_decode_attachments in H
        as (m & _ & -> & -> & ->).
      simpl. rewrite !length_map. auto.
Qed.

Lemma C7_attachment_lists_aligned_witness :
  exists r w',
    EmlAdapter_decode (sample_lib attached_message (Ok sample_msg)) eml_file
      (PyBool true) (fresh [])
    = (Ok (Some r), w')
    /\ attachment_names r = [lit "f.pdf"]
    /\ attachment_binaries r = [Some (blit "%PDF")]
    /\ attachment_types r = [lit "application/pdf"].
Proof.
  eexists. eexists. split; [reflexivity|].
  match goal with
  | |- attachment_names ?r = _ /\ _ =>
      destruct (C7_attachment_lists_aligned
                  (sample_lib attached_message (Ok sample_msg)) eml_file
                  (PyBool true) (fresh []) (mkWorld r []) r) as (H & _)
  end.
  destruct (H eq_refl) as (Hn & Hb & Ht & _).
  rewrite Hn, Hb, Ht. repeat split; reflexivity.
Defined.

(** C9. When [read_attachments] is anything but the boolean [True], a
    record returned by either decoder has the attachment lists it
    started with, and a record returned by a freshly constructed adapter
    has three empty lists; [True] itself is the only value that passes
    the test. *)
Theorem C9_no_attachments_unless_True
    (L : Lib) (f : BinaryIO) (ra : pyval) (w w' : World) (r : Email) :
  ra <> PyBool true ->
  (EmlAdapter_decode L f ra w = (Ok (Some r), w')
   \/ MsgAdapter_decode L f ra w = (Ok (Some r), w') ->
   attachment_names r = attachment_names (mail_data w)
   /\ attachment_binaries r = attachment_binaries (mail_data w)
   /\ attachment_types r = attachment_types (mail_data w))
  /\ (forall cls w0,
         construct_then_decode L cls f ra w0 = (Ok (Some r), w') ->
         attachment_names r = []
         /\ attachment_binaries r = []
         /\ attachment_types r = [])
  /\ (forall v, is_True v = true <-> v = PyBool true).
Proof.
  intros Hra.
  assert (Hv : forall v, is_True v = true <-> v = PyBool true).
  { intros [| [|] | |]; simpl; split; congruence. }
  assert (Hfalse : is_True ra = false).
  { destruct (is_True ra) eqn:E; [apply Hv in E; contradiction | reflexivity]. }
  assert (Hkeep :
    EmlAdapter_decode L f ra w = (Ok (Some r), w')
    \/ MsgAdapter_decode L f ra w = (Ok (Some r), w') ->
    forall w1 : World, w1 = w ->
    attachment_names r = attachment_names (mail_data w1)
    /\ attachment_binaries r = attachment_binaries (mail_data w1)
    /\ attachment_types r = attachment_types (mail_data w1)).
  { intros [H|H] w1 ->.
    - apply EmlAdapter_decode_attachments in H as (Hn & Hb & Ht).
      rewrite Hfalse in *. simpl in *. rewrite app_nil_r in *. auto.
    - apply MsgAdapter_decode_attachments in H as (m & _ & Hn & Hb & Ht).
      rewrite Hfalse in *. simpl in *. rewrite app_nil_r in *. auto. }
  split; [|split].
  - intros H. apply (Hkeep H w eq_refl).
  - intros cls w0 H. apply construct_then_decode_Some in H as [H|H].
    + apply EmlAdapter_decode_attachments in H as (Hn & Hb & Ht).
      rewrite Hfalse in *. simpl in *. auto.
    + apply MsgAdapter_decode_attachments in H as (m & _ & Hn & Hb & Ht).
      rewrite Hfalse in *. simpl in *. auto.
  - exact Hv.
Qed.

Lemma C9_no_attachments_unless_True_witness :
  truthy (PyInt 1) = true
  /\ exists r w',
      construct_then_decode (sample_lib attached_message (Ok sample_msg))
        MailAdapter eml_file (PyInt 1) (fresh [])
      = (Ok (Some r), w')
      /\ attachment_names r = []
      /\ attachment_binaries r = []
      /\ attachment_types r = [].
Proof.
  split; [reflexivity|].
  eexists. eexists. split; [reflexivity|].
  match goal with
  | |- attachment_names ?r = _ /\ _ =>
      destruct (C9_no_attachments_unless_True
                  (sample_lib attached_message (Ok sample_msg)) eml_file
                  (PyInt 1) (fresh []) (mkWorld r []) r) as (_ & H & _);
        [discriminate|]
  end.
  apply (H MailAdapter (fresh [])). reflexivity.
Defined.

(** C5 as stated fails: the attachment [blob.zzz], whose extension the
    lookup does not know, is recorded with the content type [None], the
    text of Python's null value, not with [unknown]. *)
Lemma C5_unmapped_extension_counterexample :
  fst (sample_guess_type (lit "blob.zzz")) = None
  /\ option_map attachment_names
       (returned (MsgAdapter_decode (sample_lib hello_message (Ok sample_msg))
                    msg_file (PyBool true) (fresh [])))
     = Some [lit "report.pdf"; lit "blob.zzz"]
  /\ option_map attachment_types
       (returned (MsgAdapter_decode (sample_lib hello_message (Ok sample_msg))
                    msg_file (PyBool true) (fresh [])))
     = Some [lit "application/pdf"; lit "None"]
  /\ lit "None" <> lit "unknown".
Proof. repeat split. discriminate. Qed.

(** C5, amended. With [read_attachments] set to [True], the content
    types a compound-binary decode appends are, attachment by attachment
    among those with a short file name, the type the lookup maps the
    name to, and the four-letter string [None] when the lookup maps it
    to nothing. *)
Theorem C5_content_type_from_guess_type
    (L : Lib) (f : BinaryIO) (w w' : World) (r : Email) :
  MsgAdapter_decode L f (PyBool true) w = (Ok (Some r), w') ->
  exists message,
    Message L (read f) = Ok message
    /\ attachment_types r
       = attachment_types (mail_data w)
         ++ map (fun a =>
                   match fst (guess_type L (filename_of (shortFilename a))) with
                   | Some t => t
                   | None => lit "None"
                   end)
                (msg_recorded message)
    /\ attachment_names r
       = attachment_names (mail_data w)
         ++ map (fun a => filename_of (shortFilename a)) (msg_recorded message).
Proof.
  intros H. apply MsgAdapter_decode_attachments in H
    as (m & Hm & Hn & _ & Ht).
  exists m. split; [exact Hm|]. split; [exact Ht | exact Hn].
Qed.

Lemma C5_content_type_from_guess_type_witness :
  exists r w',
    MsgAdapter_decode (sample_lib hello_message (Ok sample_msg)) msg_file
      (PyBool true) (fresh [])
    = (Ok (Some r), w')
    /\ attachment_types r = [lit "application/pdf"; lit "None"].
Proof.
  eexists. eexists. split; [reflexivity|].
  match goal with
  | |- attachment_types ?r = _ =>
      destruct (C5_content_type_from_guess_type
                  (sample_lib hello_message (Ok sample_msg)) msg_file
                  (fresh []) (mkWorld r []) r eq_refl)
        as (m & Hm & Ht & _)
  end.
  inversion Hm; subst m. rewrite Ht. reflexivity.
Defined.

(** ** Sender and author *)

Lemma write_header_author (L : Lib) (message : EmailMessage) (ts : datetime)
    (e : Email) :
  author (write_header L message ts e)
  = identity (parseaddr L (get (headers message) (lit "from") []))
  /\ sender (write_header L message ts e)
     = identity (parseaddr L (get (headers message) (lit "from") [])).
Proof. split; reflexivity. Qed.

Lemma EmlAdapter_decode_author (L : Lib) (f : BinaryIO) (ra : pyval)
    (w w' : World) (r : Email) :
  EmlAdapter_decode L f ra w = (Ok (Some r), w') ->
  let from := get (headers (message_from_binary_file L (read f))) (lit "from") [] in
  author r = identity (parseaddr L from)
  /\ sender r = identity (parseaddr L from).
Proof.
  intros H. apply EmlAdapter_decode_Some in H as (ts & b & _ & _ & ->).
  cbv zeta. destruct (is_True ra).
  - rewrite fold_record_eml_attachment. split; reflexivity.
  - split; reflexivity.
Qed.

Lemma MsgAdapter_decode_author (L : Lib) (f : BinaryIO) (ra : pyval)
    (w w' : World) (r : Email) :
  MsgAdapter_decode L f ra w = (Ok (Some r), w') ->
  exists message,
    Message L (read f) = Ok message
    /\ let from := get (headers (header message)) (lit "from") [] in
       author r = identity (parseaddr L from)
       /\ sender r = identity (parseaddr L from).
Proof.
  intros H. apply MsgAdapter_decode_Some in H as (m & ts & Hm & _ & ->).
  exists m. split; [exact Hm|]. cbv zeta. destruct (is_True ra).
  - rewrite fold_record_msg_attachment. destruct (msg_body m); split; reflexivity.
  - destruct (msg_body m); split; reflexivity.
Qed.

(** C8. A record returned by either decoder has the same value in
    [sender] and in [author]: the name and address that [parseaddr]
    reads from the [From] header.  When that header is [A <a@x.com>]
    and [parseaddr] reads it as the pair [A], [a@x.com], the name is [A]
    and the address, stored under the key [smtp_address], is
    [a@x.com]. *)
Theorem C8_sender_equals_author
    (L : Lib) (f : BinaryIO) (ra : pyval) (w w' : World) (r : Email) :
  (EmlAdapter_decode L f ra w = (Ok (Some r), w') ->
   let from :=
     get (headers (message_from_binary_file L (read f))) (lit "from") [] in
   author r = identity (parseaddr L from) /\ sender r = author r)
  /\ (MsgAdapter_decode L f ra w = (Ok (Some r), w') ->
      exists message,
        Message L (read f) = Ok message
        /\ author r
           = identity (parseaddr L (get (headers (header message)) (lit "from") []))
        /\ sender r = author r)
  /\ (EmlAdapter_decode L f ra w = (Ok (Some r), w') ->
      get (headers (message_from_binary_file L (read f))) (lit "from") []
      = lit "A <a@x.com>" ->
      parseaddr L (lit "A <a@x.com>") = (lit "A", lit "a@x.com") ->
      dict_get (author r) (lit "name") = Some (lit "A")
      /\ dict_get (author r) (lit "smtp_address") = Some (lit "a@x.com")
      /\ sender r = author r).
Proof.
  split; [|split].
  - intros H. apply EmlAdapter_decode_author in H as (Ha & Hs).
    cbv zeta. rewrite Hs, Ha. split; reflexivity.
  - intros H. apply MsgAdapter_decode_author in H as (m & Hm & Ha & Hs).
    exists m. rewrite Hs, Ha. repeat split. exact Hm.
  - intros H Hfrom Hparse.
    apply EmlAdapter_decode_author in H as (Ha & Hs).
    rewrite Hs, Ha, Hfrom, Hparse. repeat split.
Qed.

Lemma C8_sender_equals_author_witness :
  exists r w',
    EmlAdapter_decode (sample_lib hello_message (Ok sample_msg)) eml_file
      (PyBool true) (fresh [])
    = (Ok (Some r), w')
    /\ subject r = lit "Hi"
    /\ body r = lit "hello"
    /\ dict_get (author r) (lit "name") = Some (lit "A")
    /\ dict_get (author r) (lit "smtp_address") = Some (lit "a@x.com")
    /\ sender r = author r.
Proof.
  eexists. eexists. split; [reflexivity|].
  split; [reflexivity|]. split; [reflexivity|].
  match goal with
  | |- dict_get (author ?r) _ = _ /\ _ =>
      destruct (C8_sender_equals_author
                  (sample_lib hello_message (Ok sample_msg)) eml_file
                  (PyBool true) (fresh []) (mkWorld r []) r) as (_ & _ & H)
  end.
  apply H; reflexivity.
Defined.

(** ** The date header *)

Lemma get_absent (hs : list (str * str)) (name failobj : str) :
  (forall k v, In (k, v) hs -> lower k <> lower name) ->
  get hs name failobj = failobj.
Proof.
  induction hs as [|[k v] hs IH]; simpl; intros H; [reflexivity|].
  assert (Hk : str_eqb (lower k) (lower name) = false).
  { apply str_eqb_neq, (H k v). left; reflexivity. }
  rewrite Hk. apply IH. intros k' v' Hin. apply (H k' v'). right; exact Hin.
Qed.

Lemma EmlAdapter_decode_bad_date (L : Lib) (f : BinaryIO) (ra : pyval)
    (w : World) :
  let value :=
    get (headers (message_from_binary_file L (read f))) (lit "date") [] in
  value = [] \/ parse_date L value = None ->
  EmlAdapter_decode L f ra w = (Ok None, w).
Proof.
  intros value H.
  rewrite EmlAdapter_decode_eq, EmlAdapter_decode_from_file_eq. cbv zeta.
  fold value. unfold parsedate_to_datetime.
  destruct H as [-> | H]; [reflexivity|].
  rewrite H. destruct value; reflexivity.
Qed.

(** C4, on the code. A text-container message with no [Date] header, or
    with one that does not parse, is not decoded at all: [decode]
    returns [None] and leaves the world as it was.  When a record is
    returned, [received_on] is the parsed timestamp, never a string. *)
Theorem C4_bad_date_returns_None
    (L : Lib) (f : BinaryIO) (ra : pyval) (w : World) :
  let message := message_from_binary_file L (read f) in
  let value := get (headers message) (lit "date") [] in
  ((forall k v, In (k, v) (headers message) -> lower k <> lit "date") ->
   EmlAdapter_decode L f ra w = (Ok None, w))
  /\ (parse_date L value = None ->
      EmlAdapter_decode L f ra w = (Ok None, w))
  /\ (forall r w',
         EmlAdapter_decode L f ra w = (Ok (Some r), w') ->
         exists timestamp,
           value <> [] /\ parse_date L value = Some timestamp
           /\ received_on r = Datetime timestamp).
Proof.
  intros message value. split; [|split].
  - intros H. apply EmlAdapter_decode_bad_date. left.
    apply get_absent. exact H.
  - intros H. apply EmlAdapter_decode_bad_date. right. exact H.
  - intros r w' H. apply EmlAdapter_decode_Some in H as (ts & b & Hd & _ & ->).
    fold message in Hd. fold value in Hd. unfold parsedate_to_datetime in Hd.
    exists ts. destruct value as [|c v] eqn:Hv; [discriminate|].
    destruct (parse_date L (c :: v)) as [d|]; [|discriminate].
    inversion Hd; subst d. split; [discriminate|]. split; [reflexivity|].
    cbv zeta. destruct (is_True ra).
    + rewrite fold_record_eml_attachment. reflexivity.
    + reflexivity.
Qed.

Lemma C4_bad_date_returns_None_witness :
  EmlAdapter_decode (sample_lib undated_message (Ok sample_msg)) eml_file
    (PyBool true) (fresh [])
  = (Ok None, fresh [])
  /\ EmlAdapter_decode (sample_lib misdated_message (Ok sample_msg)) eml_file
       (PyBool true) (fresh [])
     = (Ok None, fresh []).
Proof.
  split.
  - apply (proj1 (C4_bad_date_returns_None
                    (sample_lib undated_message (Ok sample_msg)) eml_file
                    (PyBool true) (fresh []))).
    intros k v [H | [H | []]]; inversion H; subst; discriminate.
  - apply (proj1 (proj2 (C4_bad_date_returns_None
                           (sample_lib misdated_message (Ok sample_msg))
                           eml_file (PyBool true) (fresh [])))).
    reflexivity.
Defined.

(** ** The charset of a part *)

(** C10, on the code. [get_charset] returns the value of the second
    entry of [get_params()] when there is one and [utf-8] when the list
    is shorter, whatever the entry is called; when there is no
    [Content-Type] header [get_params()] is [None] and [get_charset]
    raises [TypeError], so that a message without that header is not
    decoded. *)
Theorem C10_get_charset_positional (part : EmailMessage) :
  get_charset part
  = match get_params part with
    | Some ps =>
        Ok (match nth_error ps 1 with
            | Some kv => snd kv
            | None => lit "utf-8"
            end)
    | None => raise TypeError "'NoneType' object is not subscriptable"
    end
  /\ get_charset untyped_message
     = raise TypeError "'NoneType' object is not subscriptable"
  /\ (forall mf ra,
         EmlAdapter_decode (sample_lib untyped_message mf) eml_file ra (fresh [])
         = (Ok None,
            mkWorld (write_header (sample_lib untyped_message mf) untyped_message
                       (mkDatetime 1995 11 20 19 12 8 (Some (-18000)%Z))
                       initial_mail_data) []))
  /\ get_charset
       (mkEmailMessage [] (lit "text/plain") (lit "text") None
          (Some [(lit "text/plain", []); (lit "format", lit "flowed");
                 (lit "charset", lit "utf-8")])
          None (Single []))
     = Ok (lit "flowed").
Proof.
  split; [|split; [|split]]; try reflexivity.
  unfold get_charset, subscript_params.
  destruct (get_params part) as [ps|]; [|reflexivity].
  destruct (nth_error ps 1); reflexivity.
Qed.

(** ** The body of a multi-part message *)

Lemma last_cons {A} (x d : A) (l : list A) : last (x :: l) d = last l x.
Proof.
  revert x d. induction l as [|y l IH]; intros x d; [reflexivity|].
  change (last (x :: y :: l) d) with (last (y :: l) d).
  rewrite (IH y d), (IH y x). reflexivity.
Qed.

Lemma last_opt_cons {A} (x : A) (l : list A) :
  last_opt (x :: l)
  = match last_opt l with Some y => Some y | None => Some x end.
Proof.
  unfold last_opt. simpl. destruct (rev l); reflexivity.
Qed.

(** The loop decodes every body part in walk order and keeps the last
    text; the first part that fails ends it. *)
Lemma body_loop_eq (L : Lib) (parts : list EmailMessage) (b0 : str) :
  body_loop L parts b0
  = (ts <~ texts_of L (filter is_body_part parts) ;; Ok (last ts b0)).
Proof.
  revert b0. induction parts as [|p parts IH]; intros b0; simpl.
  - reflexivity.
  - destruct (is_body_part p); [|apply IH].
    simpl. unfold part_text, rbind.
    destruct (get_charset p) as [cs|e]; [|reflexivity].
    destruct (decode_payload L p cs) as [t|e]; [|reflexivity].
    rewrite IH. unfold rbind.
    destruct (texts_of L (filter is_body_part parts)) as [ts|e];
      [|reflexivity].
    rewrite last_cons. reflexivity.
Qed.

Lemma texts_of_Forall2 (L : Lib) (parts : list EmailMessage) (ts : list str) :
  texts_of L parts = Ok ts ->
  Forall2 (fun p t => part_text L p = Ok t) parts ts.
Proof.
  revert ts. induction parts as [|p parts IH]; intros ts; simpl.
  - intros H; inversion H; constructor.
  - unfold rbind. destruct (part_text L p) as [t|e] eqn:Hp; [|discriminate].
    destruct (texts_of L parts) as [ts'|e]; [|discriminate].
    intros H; inversion H; subst. constructor; auto.
Qed.

Lemma texts_of_total (L : Lib) (parts : list EmailMessage) :
  (forall p, In p parts -> exists t, part_text L p = Ok t) ->
  exists ts, texts_of L parts = Ok ts.
Proof.
  induction parts as [|p parts IH]; intros H; simpl.
  - eauto.
  - destruct (H p (or_introl eq_refl)) as [t ->].
    destruct IH as [ts ->]; [intros q Hq; apply H; right; exact Hq|].
    simpl. eauto.
Qed.

Lemma Forall2_last {A B} (R : A -> B -> Prop) (l : list A) (l' : list B) :
  Forall2 R l l' ->
  forall d, match last_opt l with
            | Some x => R x (last l' d)
            | None => l' = []
            end.
Proof.
  induction 1 as [|x y l l' Hxy _ IH]; intros d.
  - reflexivity.
  - rewrite last_opt_cons, last_cons. specialize (IH y).
    destruct (last_opt l); [exact IH|]. subst l'. exact Hxy.
Qed.

Lemma Forall2_In_left {A B} (R : A -> B -> Prop) (l : list A) (l' : list B) :
  Forall2 R l l' -> forall x, In x l -> exists y, R x y.
Proof.
  induction 1 as [|a b l l' Hab _ IH]; intros x [].
  - subst; eauto.
  - apply IH; assumption.
Qed.

(** C3. For a multi-part message the body parts, those of main type
    [text] whose disposition is not [attachment], are decoded in walk
    order and the body is the text of the last one: extraction succeeds
    exactly when each of them decodes, and then returns the decoded
    content of the last body part (the empty string when there is none).
    With the two text parts [first] and [second] the body is [second]. *)
Theorem C3_body_is_last_text_part (L : Lib) (message : EmailMessage) :
  is_multipart message = true ->
  extract_body_from_eml L message
  = (ts <~ texts_of L (body_parts message) ;; Ok (last ts []))
  /\ (forall b,
         extract_body_from_eml L message = Ok b ->
         match last_opt (body_parts message) with
         | Some p => part_text L p = Ok b
         | None => b = []
         end)
  /\ ((forall p, In p (body_parts message) -> exists t, part_text L p = Ok t)
      <-> exists b, extract_body_from_eml L message = Ok b)
  /\ extract_body_from_eml L two_text_message = Ok (lit "second").
Proof.
  intros Hm.
  assert (Heq : extract_body_from_eml L message
                = (ts <~ texts_of L (body_parts message) ;; Ok (last ts []))).
  { unfold extract_body_from_eml. rewrite Hm. apply body_loop_eq. }
  split; [exact Heq|]. split; [|split].
  - intros b. rewrite Heq. unfold rbind.
    destruct (texts_of L (body_parts message)) as [ts|e] eqn:Ht;
      [|discriminate].
    intros H; inversion H; subst b.
    apply texts_of_Forall2 in Ht.
    pose proof (Forall2_last _ _ _ Ht []) as Hl.
    destruct (last_opt (body_parts message)); [exact Hl|].
    rewrite Hl. reflexivity.
  - rewrite Heq. split.
    + intros H. destruct (texts_of_total L _ H) as [ts ->]. simpl. eauto.
    + intros [b Hb] p Hp. unfold rbind in Hb.
      destruct (texts_of L (body_parts message)) as [ts|e] eqn:Ht;
        [|discriminate].
      apply texts_of_Forall2 in Ht.
      apply (Forall2_In_left _ _ _ Ht p Hp).
  - reflexivity.
Qed.

Lemma C3_body_is_last_text_part_witness :
  is_multipart two_text_message = true
  /\ body_parts two_text_message
     = [text_part [] "utf-8" (blit "first");
        text_part [] "utf-8" (blit "second")]
  /\ extract_body_from_eml (sample_lib two_text_message (Ok sample_msg))
       two_text_message
     = Ok (lit "second").
Proof.
  split; [reflexivity|]. split; [reflexivity|].
  destruct (C3_body_is_last_text_part
              (sample_lib two_text_message (Ok sample_msg)) two_text_message
              eq_refl) as (H & _).
  rewrite H. reflexivity.
Defined.


(** * Properties beyond the claims *)

(** ** The dispatcher *)

Lemma MailAdapter_new_cases (cls : adapter_class) (f : BinaryIO) :
  let ext := snd (splitext (name f)) in
  (ext = lit ".eml"
   /\ MailAdapter_new cls f
      = Ok (if adapter_class_eqb cls MailAdapter then EmlAdapter else cls))
  \/ (ext = lit ".msg"
      /\ MailAdapter_new cls f
         = Ok (if adapter_class_eqb cls MailAdapter then MsgAdapter else cls))
  \/ (ext <> lit ".eml" /\ ext <> lit ".msg"
      /\ MailAdapter_new cls f
         = Raise (mkExn ValueError
                    (lit "Unsupported mail extension " ++ ext ++ lit " given."))).
Proof.
  intros ext. unfold MailAdapter_new, str_in. fold ext. simpl existsb.
  destruct (str_eqb ext (lit ".eml")) eqn:He.
  - left. apply str_eqb_eq in He. rewrite He. split; [reflexivity|].
    destruct cls; reflexivity.
  - destruct (str_eqb ext (lit ".msg")) eqn:Hm.
    + right; left. apply str_eqb_eq in Hm. rewrite Hm. split; [reflexivity|].
      destruct cls; reflexivity.
    + right; right. apply str_eqb_neq in He, Hm. auto.
Qed.

(** X1. Called on [MailAdapter] itself, [__new__] has three outcomes and
    no other: an [EmlAdapter] for the extension [.eml], a [MsgAdapter]
    for [.msg], and [ValueError] for anything else.  It never raises
    [RuntimeError] and never builds an instance of the abstract class. *)
Theorem X1_dispatch_three_outcomes (f : BinaryIO) :
  let ext := snd (splitext (name f)) in
  (ext = lit ".eml" /\ MailAdapter_new MailAdapter f = Ok EmlAdapter)
  \/ (ext = lit ".msg" /\ MailAdapter_new MailAdapter f = Ok MsgAdapter)
  \/ (ext <> lit ".eml" /\ ext <> lit ".msg"
      /\ exists e, MailAdapter_new MailAdapter f = Raise e
                   /\ exn_cls e = ValueError).
Proof.
  intros ext.
  destruct (MailAdapter_new_cases MailAdapter f) as [[H1 H2]|[[H1 H2]|(H1 & H2 & H3)]].
  - left. split; assumption.
  - right; left. split; assumption.
  - right; right. repeat split; try assumption. eexists. split; [exact H3|].
    reflexivity.
Qed.

(** X2. A subclass called directly on a file with a recognised extension
    builds an instance of that subclass, whichever of the two extensions
    the file has: [EmlAdapter] accepts a [.msg] file and [MsgAdapter] an
    [.eml] file. *)
Theorem X2_subclass_ignores_which_extension
    (cls : adapter_class) (f : BinaryIO) :
  cls <> MailAdapter ->
  snd (splitext (name f)) = lit ".eml" \/ snd (splitext (name f)) = lit ".msg" ->
  MailAdapter_new cls f = Ok cls.
Proof.
  intros Hcls Hext.
  destruct (MailAdapter_new_cases cls f) as [[_ H]|[[_ H]|(H1 & H2 & _)]].
  - rewrite H. destruct cls; try reflexivity. contradiction.
  - rewrite H. destruct cls; try reflexivity. contradiction.
  - destruct Hext; contradiction.
Qed.

Lemma X2_subclass_ignores_which_extension_witness :
  MailAdapter_new EmlAdapter msg_file = Ok EmlAdapter
  /\ MailAdapter_new MsgAdapter eml_file = Ok MsgAdapter.
Proof.
  split.
  - apply X2_subclass_ignores_which_extension; [discriminate|].
    right; reflexivity.
  - apply X2_subclass_ignores_which_extension; [discriminate|].
    left; reflexivity.
Defined.

Lemma splitext_concat (p : str) : fst (splitext p) ++ snd (splitext p) = p.
Proof.
  unfold splitext.
  destruct ((rfind p SEP <? rfind p EXTSEP)%Z
            && has_non_dot p (rfind p SEP + 1) (rfind p EXTSEP)); simpl.
  - apply firstn_skipn.
  - apply app_nil_r.
Qed.

(** X3. A file that [__new__] accepts, for any class, has a name that
    ends in [.eml] or in [.msg]. *)
Theorem X3_accepted_name_ends_in_extension
    (cls c : adapter_class) (f : BinaryIO) :
  MailAdapter_new cls f = Ok c ->
  exists root, name f = root ++ lit ".eml" \/ name f = root ++ lit ".msg".
Proof.
  intros H. exists (fst (splitext (name f))).
  pose proof (splitext_concat (name f)) as Hc.
  destruct (MailAdapter_new_cases cls f) as [[He _]|[[He _]|(_ & _ & He)]].
  - left. rewrite <- He. symmetry; exact Hc.
  - right. rewrite <- He. symmetry; exact Hc.
  - rewrite He in H. discriminate.
Qed.

Lemma X3_accepted_name_ends_in_extension_witness :
  exists root,
    name (mkBinaryIO (lit "in.box/mail.eml") [])  = root ++ lit ".eml"
    \/ name (mkBinaryIO (lit "in.box/mail.eml") []) = root ++ lit ".msg".
Proof.
  apply (X3_accepted_name_ends_in_extension MailAdapter EmlAdapter).
  reflexivity.
Defined.

(** ** Which names the dispatcher accepts *)

Lemma rfind_from_notin (i : Z) (q : str) (c : N) :
  ~ In c q -> rfind_from i q c = (-1)%Z.
Proof.
  revert i. induction q as [|x q IH]; intros i H; simpl; [reflexivity|].
  rewrite IH by (intros Hin; apply H; right; exact Hin).
  simpl. destruct (N.eqb x c) eqn:E; [|reflexivity].
  apply N.eqb_eq in E. exfalso. apply H. left; exact E.
Qed.

Lemma rfind_from_range (i : Z) (p : str) (c : N) :
  rfind_from i p c = (-1)%Z
  \/ (i <= rfind_from i p c < i + Z.of_nat (List.length p))%Z.
Proof.
  revert i. induction p as [|x p IH]; intros i; simpl List.length; simpl rfind_from.
  - left; reflexivity.
  - destruct (IH (i + 1)%Z) as [H|H].
    + rewrite H. simpl. destruct (N.eqb x c); [right; lia | left; reflexivity].
    + destruct (0 <=? rfind_from (i + 1) p c)%Z eqn:E.
      * right. lia.
      * destruct (N.eqb x c); [right; lia | left; reflexivity].
Qed.

Lemma rfind_from_app_notin (i : Z) (p q : str) (c : N) :
  ~ In c q -> rfind_from i (p ++ q) c = rfind_from i p c.
Proof.
  intros H. revert i. induction p as [|x p IH]; intros i; simpl.
  - apply rfind_from_notin, H.
  - rewrite IH. reflexivity.
Qed.

Lemma rfind_from_app_last (i : Z) (p q : str) (c : N) :
  (0 <= i)%Z -> ~ In c q ->
  rfind_from i (p ++ c :: q) c = (i + Z.of_nat (List.length p))%Z.
Proof.
  intros Hi H. revert i Hi. induction p as [|x p IH]; intros i Hi.
  - simpl. rewrite rfind_from_notin by exact H. simpl.
    rewrite N.eqb_refl. lia.
  - simpl app. simpl rfind_from. rewrite IH by lia.
    destruct (0 <=? i + 1 + Z.of_nat (List.length p))%Z eqn:E.
    + simpl List.length. lia.
    + apply Z.leb_gt in E. lia.
Qed.

(** A base name with no dot and no slash, followed by a dot and an
    extension with no dot and no slash, splits at that dot. *)
Lemma splitext_base_ext (pre base e : str) :
  base <> [] ->
  (forall x, In x base -> x <> SEP /\ x <> EXTSEP) ->
  (forall x, In x e -> x <> SEP /\ x <> EXTSEP) ->
  splitext (pre ++ base ++ EXTSEP :: e) = (pre ++ base, EXTSEP :: e).
Proof.
  intros Hne Hbase He.
  assert (Hdot : rfind (pre ++ base ++ EXTSEP :: e) EXTSEP
                 = Z.of_nat (List.length (pre ++ base))).
  { unfold rfind. rewrite app_assoc. rewrite rfind_from_app_last; [lia|lia|].
    intros Hin. apply He in Hin. tauto. }
  assert (Hsep : rfind (pre ++ base ++ EXTSEP :: e) SEP = rfind pre SEP).
  { unfold rfind. apply rfind_from_app_notin. intros Hin.
    apply in_app_or in Hin as [Hin|[Hin|Hin]].
    - apply Hbase in Hin. tauto.
    - discriminate.
    - apply He in Hin. tauto. }
  unfold splitext. rewrite Hdot, Hsep.
  assert (Hr : rfind pre SEP = (-1)%Z
               \/ (0 <= rfind pre SEP < Z.of_nat (List.length pre))%Z).
  { destruct (rfind_from_range 0 pre SEP) as [H|H]; [left; exact H|right].
    unfold rfind. lia. }
  rewrite length_app.
  assert (Hlt : (rfind pre SEP
                 <? Z.of_nat (List.length pre + List.length base))%Z = true).
  { apply Z.ltb_lt. lia. }
  rewrite Hlt. simpl andb.
  assert (Hnd : has_non_dot (pre ++ base ++ EXTSEP :: e) (rfind pre SEP + 1)
                  (Z.of_nat (List.length pre + List.length base)) = true).
  { unfold has_non_dot.
    set (k := Z.to_nat (rfind pre SEP + 1)).
    assert (Hk : (k <= List.length pre)%nat) by (unfold k; lia).
    rewrite skipn_app.
    replace (k - List.length pre)%nat with 0%nat by lia. simpl skipn.
    replace (Z.to_nat (Z.of_nat (List.length pre + List.length base)
                       - (rfind pre SEP + 1)))
      with (List.length (skipn k pre) + List.length base)%nat
      by (rewrite length_skipn; unfold k; lia).
    rewrite firstn_app_2, firstn_app, firstn_all.
    rewrite !existsb_app.
    destruct base as [|b0 base']; [contradiction|].
    simpl. destruct (Hbase b0 (or_introl eq_refl)) as [_ Hb0].
    apply N.eqb_neq in Hb0. rewrite Hb0. simpl.
    apply orb_true_r. }
  rewrite Hnd. rewrite <- length_app, Nat2Z.id, app_assoc.
  rewrite firstn_app, firstn_all, skipn_app, skipn_all.
  rewrite Nat.sub_diag. simpl. rewrite app_nil_r. reflexivity.
Qed.

(** X4. A name made of any prefix, a non-empty base name without dot or
    slash, and [.eml] selects [EmlAdapter]; with [.msg] it selects
    [MsgAdapter]. *)
Theorem X4_plain_names_are_dispatched (pre base : str) (content : bytes) :
  base <> [] ->
  (forall x, In x base -> x <> SEP /\ x <> EXTSEP) ->
  MailAdapter_new MailAdapter (mkBinaryIO (pre ++ base ++ lit ".eml") content)
  = Ok EmlAdapter
  /\ MailAdapter_new MailAdapter (mkBinaryIO (pre ++ base ++ lit ".msg") content)
     = Ok MsgAdapter.
Proof.
  intros Hne Hbase.
  assert (He : forall x, In x (lit "eml") -> x <> SEP /\ x <> EXTSEP).
  { intros x [<-|[<-|[<-|[]]]]; split; discriminate. }
  assert (Hm : forall x, In x (lit "msg") -> x <> SEP /\ x <> EXTSEP).
  { intros x [<-|[<-|[<-|[]]]]; split; discriminate. }
  unfold MailAdapter_new. simpl name.
  change (lit ".eml") with (EXTSEP :: lit "eml").
  change (lit ".msg") with (EXTSEP :: lit "msg").
  rewrite (splitext_base_ext pre base (lit "eml") Hne Hbase He).
  rewrite (splitext_base_ext pre base (lit "msg") Hne Hbase Hm).
  split; reflexivity.
Qed.

Lemma X4_plain_names_are_dispatched_witness :
  MailAdapter_new MailAdapter (mkBinaryIO (lit "in.box/mail.eml") [])
  = Ok EmlAdapter.
Proof.
  apply (X4_plain_names_are_dispatched (lit "in.box/") (lit "mail") []).
  - discriminate.
  - intros x [<-|[<-|[<-|[<-|[]]]]]; split; discriminate.
Defined.

(** ** What a caller can observe *)

Lemma EmlAdapter_decode_outcome (L : Lib) (f : BinaryIO) (ra : pyval)
    (w : World) :
  let message := message_from_binary_file L (read f) in
  EmlAdapter_decode L f ra w
  = match parsedate_to_datetime L (get (headers message) (lit "date") []) with
    | Raise _ => (Ok None, w)
    | Ok timestamp =>
        let md1 := write_header L message timestamp (mail_data w) in
        match extract_body_from_eml L message with
        | Raise _ => (Ok None, mkWorld md1 (stdout w))
        | Ok b =>
            let md3 :=
              if is_True ra
              then fold_left (fun e p => record_eml_attachment p e)
                             (walk message) (set_body b md1)
              else set_body b md1 in
            (Ok (Some md3), mkWorld md3 (stdout w))
        end
    end.
Proof.
  intros message.
  rewrite EmlAdapter_decode_eq, EmlAdapter_decode_from_file_eq. cbv zeta.
  fold message.
  destruct (parsedate_to_datetime L _) as [ts|e] eqn:Hd.
  - destruct (extract_body_from_eml L message) as [b|e] eqn:Hb; [reflexivity|].
    rewrite (extract_body_from_eml_Exception L message e Hb). reflexivity.
  - rewrite (parsedate_to_datetime_Exception L _ e Hd). reflexivity.
Qed.

Lemma MsgAdapter_decode_outcome (L : Lib) (f : BinaryIO) (ra : pyval)
    (w : World) :
  MsgAdapter_decode L f ra w
  = match Message L (read f) with
    | Raise e =>
        if is_Exception e
        then (Ok None, mkWorld (mail_data w) (stdout w ++ [exn_msg e]))
        else (Raise e, w)
    | Ok message =>
        match parsedate_to_datetime L
                (get (headers (header message)) (lit "date") []) with
        | Raise e =>
            (Ok None, mkWorld (mail_data w) (stdout w ++ [exn_msg e]))
        | Ok timestamp =>
            let md1 := write_header L (header message) timestamp (mail_data w) in
            let md2 :=
              match msg_body message with
              | Some b =>
                  set_body
                    (strip_nul
                       (match b with
                        | inl s => s
                        | inr b => first_success ENCODINGS_codecs b
                        end)) md1
              | None => md1
              end in
            let md3 :=
              if is_True ra
              then fold_left (fun e a => record_msg_attachment L a e)
                             (attachments message) md2
              else md2 in
            (Ok (Some md3), mkWorld md3 (stdout w))
        end
    end.
Proof.
  rewrite MsgAdapter_decode_eq, MsgAdapter_decode_from_file_eq. cbv zeta.
  destruct (Message L (read f)) as [m|e]; [|reflexivity].
  destruct (parsedate_to_datetime L _) as [ts|e] eqn:Hd.
  - destruct (msg_body m) as [b|]; [|reflexivity].
    rewrite decode_msg_body_ENCODINGS. reflexivity.
  - rewrite (parsedate_to_datetime_Exception L _ e Hd). reflexivity.
Qed.

(** X5. The only exceptions a caller of [MailAdapter(file).decode(...)]
    can see are the [ValueError] of an unsupported extension, raised with
    the world untouched, and an exception outside the class [Exception]
    raised by the container parser on a [.msg] file. *)
Theorem X5_exceptions_a_caller_sees
    (L : Lib) (f : BinaryIO) (ra : pyval) (w w' : World) (e : exn) :
  construct_then_decode L MailAdapter f ra w = (Raise e, w') ->
  (exn_cls e = ValueError /\ w' = w
   /\ snd (splitext (name f)) <> lit ".eml"
   /\ snd (splitext (name f)) <> lit ".msg")
  \/ (is_Exception e = false
      /\ snd (splitext (name f)) = lit ".msg"
      /\ Message L (read f) = Raise e).
Proof.
  unfold construct_then_decode, construct, bind, lift, update, ret, decode.
  destruct (MailAdapter_new_cases MailAdapter f)
    as [[He ->]|[[He ->]|(He & Hm & ->)]]; simpl.
  - rewrite EmlAdapter_decode_outcome. cbv zeta.
    destruct (parsedate_to_datetime L _); [|discriminate].
    destruct (extract_body_from_eml L _); discriminate.
  - rewrite MsgAdapter_decode_outcome. cbv zeta.
    destruct (Message L (read f)) as [m|e0].
    + destruct (parsedate_to_datetime L _); discriminate.
    + destruct (is_Exception e0) eqn:Hx; [discriminate|].
      intros H; inversion H; subst. right. auto.
  - intros H; inversion H; subst. left. auto.
Qed.

Lemma X5_exceptions_a_caller_sees_witness :
  construct_then_decode (sample_lib hello_message (Ok sample_msg)) MailAdapter
    (mkBinaryIO (lit "notes.txt") []) (PyBool true) (fresh [])
  = (Raise (mkExn ValueError (lit "Unsupported mail extension .txt given.")),
     fresh [])
  /\ snd (splitext (lit "notes.txt")) <> lit ".eml".
Proof.
  split; [reflexivity|].
  destruct (X5_exceptions_a_caller_sees
              (sample_lib hello_message (Ok sample_msg))
              (mkBinaryIO (lit "notes.txt") []) (PyBool true) (fresh [])
              (fresh [])
              (mkExn ValueError (lit "Unsupported mail extension .txt given."))
              eq_refl) as [(_ & _ & H & _)|(H & _)].
  - exact H.
  - discriminate.
Defined.

(** X6. The record a successful decode returns is the adapter's own
    [mail_data] as the call leaves it, and a successful decode prints
    nothing, for both decoders. *)
Theorem X6_returned_record_is_mail_data
    (L : Lib) (f : BinaryIO) (ra : pyval) (w w' : World) (r : Email) :
  EmlAdapter_decode L f ra w = (Ok (Some r), w')
  \/ MsgAdapter_decode L f ra w = (Ok (Some r), w') ->
  mail_data w' = r /\ stdout w' = stdout w.
Proof.
  intros [H|H].
  - rewrite EmlAdapter_decode_outcome in H. cbv zeta in H.
    destruct (parsedate_to_datetime L _); [|discriminate].
    destruct (extract_body_from_eml L _); [|discriminate].
    inversion H; subst. split; reflexivity.
  - rewrite MsgAdapter_decode_outcome in H. cbv zeta in H.
    destruct (Message L (read f)) as [m|e0].
    + destruct (parsedate_to_datetime L _); [|discriminate].
      inversion H; subst. split; reflexivity.
    + destruct (is_Exception e0); discriminate.
Qed.

Lemma X6_returned_record_is_mail_data_witness :
  exists r w',
    MsgAdapter_decode (sample_lib hello_message (Ok sample_msg)) msg_file
      (PyBool true) (fresh [])
    = (Ok (Some r), w')
    /\ mail_data w' = r /\ stdout w' = [].
Proof.
  eexists. eexists. split; [reflexivity|].
  apply (X6_returned_record_is_mail_data
           (sample_lib hello_message (Ok sample_msg)) msg_file (PyBool true)
           (fresh [])).
  right. reflexivity.
Defined.



(** ** The encoding chain, closer up *)

Lemma decode_utf_8_ascii_head (x : byte) (b : bytes) :
  (Byte.to_N x <? 128)%N = true ->
  decode_utf_8 (x :: b) = option_map (cons (Byte.to_N x)) (decode_utf_8 b).
Proof. intros H. simpl. rewrite H. reflexivity. Qed.

Lemma decode_ascii_is_utf_8 (b : bytes) (s : str) :
  decode_ascii b = Some s -> decode_utf_8 b = Some s.
Proof.
  unfold decode_ascii.
  destruct (forallb (fun x => (Byte.to_N x <? 128)%N) b) eqn:H; [|discriminate].
  intros E; inversion E; subst s; clear E.
  induction b as [|x b IH]; [reflexivity|].
  simpl in H. apply andb_true_iff in H as [Hx Hb].
  rewrite decode_utf_8_ascii_head by exact Hx.
  rewrite (IH Hb). reflexivity.
Qed.

Lemma decode_utf_8_BOM (b0 b1 b2 : byte) (rest : bytes) :
  Byte.to_N b0 = 239%N -> Byte.to_N b1 = 187%N -> Byte.to_N b2 = 191%N ->
  decode_utf_8 (b0 :: b1 :: b2 :: rest)
  = option_map (cons 65279%N) (decode_utf_8 rest).
Proof. intros H0 H1 H2. simpl. rewrite H0, H1, H2. reflexivity. Qed.

(** Whatever [utf-8-sig] decodes, [utf-8] decodes too. *)
Lemma decode_utf_8_sig_fails (b : bytes) :
  decode_utf_8 b = None -> decode_utf_8_sig b = None.
Proof.
  intros H. unfold decode_utf_8_sig.
  destruct b as [|b0 [|b1 [|b2 rest]]]; simpl firstn; simpl map.
  - exact H.
  - destruct (Byte.to_N b0) as [|p]; [exact H|].
    do 8 (destruct p as [p|p|]; try exact H).
  - destruct (Byte.to_N b0) as [|p]; [exact H|].
    do 8 (destruct p as [p|p|]; try exact H);
      destruct (Byte.to_N b1) as [|q]; try exact H;
      do 8 (destruct q as [q|q|]; try exact H).
  - destruct (Byte.to_N b0) as [|p] eqn:E0; [exact H|].
    do 8 (destruct p as [p|p|]; try exact H);
      destruct (Byte.to_N b1) as [|q] eqn:E1; try exact H;
      do 8 (destruct q as [q|q|]; try exact H);
      destruct (Byte.to_N b2) as [|r] eqn:E2; try exact H;
      do 8 (destruct r as [r|r|]; try exact H).
    simpl skipn. rewrite (decode_utf_8_BOM _ _ _ rest E0 E1 E2) in H.
    destruct (decode_utf_8 rest); [discriminate | reflexivity].
Qed.

Lemma first_success_ENCODINGS_collapses (b : bytes) :
  first_success ENCODINGS_codecs b
  = match decode_utf_8 b with Some s => s | None => map Byte.to_N b end.
Proof.
  rewrite first_success_ENCODINGS.
  destruct (decode_ascii b) as [s|] eqn:Ha.
  - rewrite (decode_ascii_is_utf_8 b s Ha). reflexivity.
  - destruct (decode_utf_8 b) as [s|] eqn:Hu; [reflexivity|].
    rewrite (decode_utf_8_sig_fails b Hu). reflexivity.
Qed.

(** X8. With the default encodings [decode_msg_body] amounts to two
    cases: bytes that are valid UTF-8 decode as UTF-8, all other bytes
    decode as latin-1, one character per byte.  The entries [ascii],
    [utf-8-sig] and [cp1252] and the lossy fallback never change the
    result. *)
Theorem X8_default_chain_is_utf_8_else_latin_1 (L : Lib) (b : bytes) :
  decode_msg_body L (inr b) ENCODINGS
  = Ok (match decode_utf_8 b with
        | Some s => s
        | None => map Byte.to_N b
        end).
Proof.
  rewrite decode_msg_body_ENCODINGS, first_success_ENCODINGS_collapses.
  reflexivity.
Qed.

Section StripMore.
Context {A : Type} (drop : A -> bool).

Lemma lstrip_keep (x : A) (l : list A) :
  drop x = false -> lstrip drop (x :: l) = x :: l.
Proof. intros H. simpl. rewrite H. reflexivity. Qed.

Lemma lstrip_all (l : list A) :
  forallb drop l = true -> lstrip drop l = [].
Proof.
  induction l as [|x l IH]; simpl; [reflexivity|].
  intros H. apply andb_true_iff in H as [Hx Hl]. rewrite Hx. apply IH, Hl.
Qed.

Lemma lstrip_fixed (l : list A) :
  (forall x, hd_error l = Some x -> drop x = false) -> lstrip drop l = l.
Proof.
  destruct l as [|x l]; [reflexivity|].
  intros H. apply lstrip_keep, H. reflexivity.
Qed.

Lemma rstrip_fixed (l : list A) :
  (forall x, last_opt l = Some x -> drop x = false) -> rstrip drop l = l.
Proof.
  intros H. unfold rstrip. rewrite lstrip_fixed.
  - apply rev_involutive.
  - intros x Hx. apply H. unfold last_opt.
    destruct (rev l); simpl in *; congruence.
Qed.

Lemma strip_fixed (l : list A) :
  (forall x, hd_error l = Some x -> drop x = false) ->
  (forall x, last_opt l = Some x -> drop x = false) ->
  strip drop l = l.
Proof.
  intros Hh Hl. unfold strip. rewrite rstrip_fixed by exact Hl.
  apply lstrip_fixed, Hh.
Qed.

Lemma strip_idempotent (l : list A) :
  strip drop (strip drop l) = strip drop l.
Proof.
  destruct (strip_spec drop l) as (_ & Hh & Hl).
  apply strip_fixed; assumption.
Qed.

Lemma strip_all (l : list A) :
  forallb drop l = true -> strip drop l = [].
Proof.
  intros H. unfold strip, rstrip.
  rewrite (lstrip_all (rev l)) by (apply forallb_rev, H). reflexivity.
Qed.
End StripMore.

(** X9. A body of bytes that starts with the UTF-8 byte order mark and
    goes on as valid UTF-8 is decoded by [utf-8], which comes before
    [utf-8-sig] in the list: the mark stays in the text as the character
    U+FEFF, also after the NUL characters are stripped. *)
Theorem X9_byte_order_mark_is_kept (L : Lib) (rest : bytes) (s : str) :
  decode_utf_8 rest = Some s ->
  decode_msg_body L (inr (BOM_UTF8 ++ rest)) ENCODINGS = Ok (65279%N :: s)
  /\ hd_error (strip_nul (65279%N :: s)) = Some 65279%N.
Proof.
  intros H. split.
  - rewrite decode_msg_body_ENCODINGS, first_success_ENCODINGS_collapses.
    unfold BOM_UTF8. simpl app.
    rewrite (decode_utf_8_BOM xef xbb xbf rest eq_refl eq_refl eq_refl), H.
    reflexivity.
  - destruct (strip_spec is_nul (65279%N :: s))
      as ((pre & post & Hd & Hpre & Hpost) & _).
    fold (strip_nul (65279%N :: s)) in Hd.
    destruct pre as [|x pre].
    + simpl in Hd. destruct (strip_nul (65279%N :: s)) as [|y t].
      * simpl in Hd. subst post. simpl in Hpost. discriminate.
      * inversion Hd; subst. reflexivity.
    + inversion Hd; subst x. simpl in Hpre. discriminate.
Qed.

Lemma X9_byte_order_mark_is_kept_witness :
  decode_msg_body (sample_lib hello_message (Ok sample_msg))
    (inr (BOM_UTF8 ++ blit "hi")) ENCODINGS
  = Ok [65279; 104; 105]%N.
Proof.
  apply (X9_byte_order_mark_is_kept
           (sample_lib hello_message (Ok sample_msg)) (blit "hi")).
  reflexivity.
Defined.



(** X11. Stripping the NUL characters of a body is idempotent, turns a
    body made of NUL characters only into the empty string, and leaves
    a body that neither starts nor ends with NUL as it is, NUL
    characters inside included. *)
Theorem X11_strip_nul_laws (s : str) :
  strip_nul (strip_nul s) = strip_nul s
  /\ (forallb is_nul s = true -> strip_nul s = [])
  /\ (hd_error s <> Some 0%N -> last_opt s <> Some 0%N -> strip_nul s = s).
Proof.
  split; [apply strip_idempotent|]. split; [apply strip_all|].
  intros Hh Hl. apply strip_fixed.
  - intros x Hx. unfold is_nul. apply N.eqb_neq. intros ->. contradiction.
  - intros x Hx. unfold is_nul. apply N.eqb_neq. intros ->. contradiction.
Qed.

Lemma X11_strip_nul_laws_witness :
  strip_nul [0; 0; 0]%N = []
  /\ strip_nul [97; 0; 98]%N = [97; 0; 98]%N.
Proof.
  destruct (X11_strip_nul_laws [0; 0; 0]%N) as (_ & H1 & _).
  destruct (X11_strip_nul_laws [97; 0; 98]%N) as (_ & _ & H2).
  split; [apply H1; reflexivity | apply H2; discriminate].
Defined.

(** ** The fields of a returned record *)

Lemma header_fields_agree_eml_fold (parts : list EmailMessage) (e : Email) :
  header_fields_agree
    (fold_left (fun e p => record_eml_attachment p e) parts e) e
  /\ body (fold_left (fun e p => record_eml_attachment p e) parts e) = body e.
Proof.
  rewrite fold_record_eml_attachment. unfold header_fields_agree. simpl. tauto.
Qed.

Lemma header_fields_agree_msg_fold (L : Lib) (l : list Attachment) (e : Email) :
  header_fields_agree
    (fold_left (fun e a => record_msg_attachment L a e) l e) e
  /\ body (fold_left (fun e a => record_msg_attachment L a e) l e) = body e.
Proof.
  rewrite fold_record_msg_attachment. unfold header_fields_agree. simpl. tauto.
Qed.

(** The fields a successful decode writes from the headers. *)
Lemma decoded_header_fields (L : Lib) (f : BinaryIO) (ra : pyval)
    (w w' : World) (r : Email) :
  EmlAdapter_decode L f ra w = (Ok (Some r), w')
  \/ MsgAdapter_decode L f ra w = (Ok (Some r), w') ->
  exists message timestamp,
    (message = message_from_binary_file L (read f)
     \/ exists mf, Message L (read f) = Ok mf /\ message = header mf)
    /\ parsedate_to_datetime L (get (headers message) (lit "date") [])
       = Ok timestamp
    /\ header_fields_agree r (write_header L message timestamp (mail_data w)).
Proof.
  intros [H|H].
  - apply EmlAdapter_decode_Some in H as (ts & b & Hd & _ & ->).
    eexists. exists ts. split; [left; reflexivity|]. split; [exact Hd|].
    cbv zeta. destruct (is_True ra).
    + destruct (header_fields_agree_eml_fold
                  (walk (message_from_binary_file L (read f)))
                  (set_body b (write_header L (message_from_binary_file L (read f))
                                 ts (mail_data w)))) as [Hf _].
      exact Hf.
    + unfold header_fields_agree. simpl. tauto.
  - apply MsgAdapter_decode_Some in H as (m & ts & Hm & Hd & ->).
    exists (header m), ts. split; [right; eauto|]. split; [exact Hd|].
    cbv zeta. destruct (is_True ra).
    + match goal with
      | |- header_fields_agree (fold_left _ _ ?e) _ =>
          destruct (header_fields_agree_msg_fold L (attachments m) e) as [Hf _]
      end.
      destruct (msg_body m); exact Hf.
    + destruct (msg_body m); unfold header_fields_agree; simpl; tauto.
Qed.

(** X12. In a record returned by either decoder [received_on] is a
    timestamp, [author] and [sender] have exactly the two keys [name] and
    [smtp_address], in that order, and so has every entry of [to] and of
    [cc]. *)
Theorem X12_shape_of_a_returned_record
    (L : Lib) (f : BinaryIO) (ra : pyval) (w w' : World) (r : Email) :
  EmlAdapter_decode L f ra w = (Ok (Some r), w')
  \/ MsgAdapter_decode L f ra w = (Ok (Some r), w') ->
  let keys := [lit "name"; lit "smtp_address"] in
  (exists timestamp, received_on r = Datetime timestamp)
  /\ map fst (author r) = keys
  /\ map fst (sender r) = keys
  /\ Forall (fun d => map fst d = keys) (to r)
  /\ Forall (fun d => map fst d = keys) (cc r).
Proof.
  intros H keys.
  apply decoded_header_fields in H
    as (m & ts & _ & _ & Hs & Hr & Hse & Ha & Ht & Hc).
  rewrite Hr, Ha, Hse, Ht, Hc. simpl.
  split; [eauto|]. split; [reflexivity|]. split; [reflexivity|].
  split; apply Forall_forall; intros d Hd; apply in_map_iff in Hd
    as (p & <- & _); reflexivity.
Qed.

Lemma X12_shape_of_a_returned_record_witness :
  exists r w',
    EmlAdapter_decode (sample_lib hello_message (Ok sample_msg)) eml_file
      (PyBool true) (fresh [])
    = (Ok (Some r), w')
    /\ Forall (fun d => map fst d = [lit "name"; lit "smtp_address"]) (to r).
Proof.
  eexists. eexists. split; [reflexivity|].
  match goal with
  | |- Forall _ (to ?r) =>
      destruct (X12_shape_of_a_returned_record
                  (sample_lib hello_message (Ok sample_msg)) eml_file
                  (PyBool true) (fresh []) (mkWorld r []) r
                  (or_introl eq_refl)) as (_ & _ & _ & H & _)
  end.
  exact H.
Defined.

Lemma get_all_app (hs1 hs2 : list (str * str)) (name : str) :
  get_all (hs1 ++ hs2) name = get_all hs1 name ++ get_all hs2 name.
Proof. unfold get_all. rewrite filter_app, map_app. reflexivity. Qed.

Lemma get_all_absent (hs : list (str * str)) (name : str) :
  (forall k v, In (k, v) hs -> lower k <> lower name) -> get_all hs name = [].
Proof.
  unfold get_all. induction hs as [|[k v] hs IH]; intros H; [reflexivity|].
  simpl.
  assert (Hk : str_eqb (lower k) (lower name) = false).
  { apply str_eqb_neq, (H k v). left; reflexivity. }
  rewrite Hk. apply IH. intros k' v' Hin. apply (H k' v'). right; exact Hin.
Qed.

Lemma get_first (hs1 hs2 : list (str * str)) (k v name failobj : str) :
  lower k = lower name ->
  (forall k' v', In (k', v') hs1 -> lower k' <> lower name) ->
  get (hs1 ++ (k, v) :: hs2) name failobj = v.
Proof.
  intros Hk Hbefore. induction hs1 as [|[k1 v1] hs1 IH]; simpl.
  - rewrite Hk, str_eqb_refl. reflexivity.
  - assert (Hk1 : str_eqb (lower k1) (lower name) = false).
    { apply str_eqb_neq, (Hbefore k1 v1). left; reflexivity. }
    rewrite Hk1. apply IH. intros k' v' Hin. apply (Hbefore k' v').
    right; exact Hin.
Qed.

(** X13. A record returned by the text decoder has in [subject] the
    value of the first [Subject] header, whatever the case of its name,
    and the empty string when there is none; [to] and [cc] hold one
    dictionary per pair that [getaddresses] reads from all the [To], and
    all the [Cc], header values in file order, so that with no such
    header [getaddresses] is given the empty list. *)
Theorem X13_subject_and_recipients
    (L : Lib) (f : BinaryIO) (ra : pyval) (w w' : World) (r : Email) :
  EmlAdapter_decode L f ra w = (Ok (Some r), w') ->
  let hs := headers (message_from_binary_file L (read f)) in
  subject r = get hs (lit "subject") []
  /\ to r = map (identity) (getaddresses L (get_all hs (lit "to")))
  /\ cc r = map (identity) (getaddresses L (get_all hs (lit "cc")))
  /\ ((forall k v, In (k, v) hs -> lower k <> lit "subject") -> subject r = [])
  /\ ((forall k v, In (k, v) hs -> lower k <> lit "to") ->
      to r = map identity (getaddresses L []))
  /\ (forall hs1 k v hs2,
         hs = hs1 ++ (k, v) :: hs2 ->
         lower k = lit "subject" ->
         (forall k' v', In (k', v') hs1 -> lower k' <> lit "subject") ->
         subject r = v).
Proof.
  intros H hs.
  apply EmlAdapter_decode_Some in H as (ts & b & _ & _ & Hr).
  assert (Hsub : subject r = get hs (lit "subject") []).
  { rewrite Hr. cbv zeta. destruct (is_True ra).
    - rewrite fold_record_eml_attachment. reflexivity.
    - reflexivity. }
  assert (Hto : to r = map identity (getaddresses L (get_all hs (lit "to")))).
  { rewrite Hr. cbv zeta. destruct (is_True ra).
    - rewrite fold_record_eml_attachment. reflexivity.
    - reflexivity. }
  assert (Hcc : cc r = map identity (getaddresses L (get_all hs (lit "cc")))).
  { rewrite Hr. cbv zeta. destruct (is_True ra).
    - rewrite fold_record_eml_attachment. reflexivity.
    - reflexivity. }
  split; [exact Hsub|]. split; [exact Hto|]. split; [exact Hcc|].
  split; [|split].
  - intros Habs. rewrite Hsub. apply get_absent. exact Habs.
  - intros Habs. rewrite Hto, (get_all_absent hs (lit "to")); [reflexivity|].
    exact Habs.
  - intros hs1 k v hs2 Hhs Hk Hbefore. rewrite Hsub, Hhs.
    apply get_first; assumption.
Qed.

Lemma X13_subject_and_recipients_witness :
  exists r w',
    EmlAdapter_decode (sample_lib bare_message (Ok sample_msg)) eml_file
      (PyBool true) (fresh [])
    = (Ok (Some r), w')
    /\ subject r = [] /\ to r = [].
Proof.
  eexists. eexists. split; [reflexivity|].
  match goal with
  | |- subject ?r = _ /\ _ =>
      destruct (X13_subject_and_recipients
                  (sample_lib bare_message (Ok sample_msg)) eml_file
                  (PyBool true) (fresh []) (mkWorld r []) r eq_refl)
        as (_ & _ & _ & Hs & Ht & _)
  end.
  split.
  - apply Hs. intros k v [E|[]]; inversion E; subst; discriminate.
  - rewrite Ht; [reflexivity|].
    intros k v [E|[]]; inversion E; subst; discriminate.
Defined.

Lemma write_header_overwrites (L : Lib) (message : EmailMessage)
    (ts : datetime) (e e' : Email) :
  header_fields_agree (write_header L message ts e)
                      (write_header L message ts e').
Proof. unfold header_fields_agree. simpl. tauto. Qed.



(** X15. The adapter keeps one [mail_data] for its whole life.  A second
    successful text-container decode on the same adapter, with
    attachments and from a handle with the same content, returns the
    same header fields and body but appends the attachments again: from
    a fresh adapter each of the three lists is then the first result
    twice over. *)
Theorem X15_second_decode_appends_again
    (L : Lib) (f1 f2 : BinaryIO) (w w1 : World) (r1 : Email) :
  read f2 = read f1 ->
  EmlAdapter_decode L f1 (PyBool true) w = (Ok (Some r1), w1) ->
  exists r2 w2,
    EmlAdapter_decode L f2 (PyBool true) w1 = (Ok (Some r2), w2)
    /\ header_fields_agree r2 r1 /\ body r2 = body r1
    /\ (mail_data w = initial_mail_data ->
        attachment_names r2 = attachment_names r1 ++ attachment_names r1
        /\ attachment_binaries r2
           = attachment_binaries r1 ++ attachment_binaries r1
        /\ attachment_types r2 = attachment_types r1 ++ attachment_types r1).
Proof.
  intros Hread.
  rewrite !EmlAdapter_decode_outcome. cbv zeta. rewrite Hread.
  set (m := message_from_binary_file L (read f1)).
  destruct (parsedate_to_datetime L _) as [ts|e]; [|discriminate].
  destruct (extract_body_from_eml L _) as [b|e]; [|discriminate].
  simpl is_True. cbv iota.
  intros H; inversion H; subst; clear H.
  eexists. eexists. split; [reflexivity|].
  simpl mail_data. rewrite !fold_record_eml_attachment. cbv zeta.
  unfold header_fields_agree. simpl.
  split; [repeat split|]. split; [reflexivity|].
  intros Hw. rewrite Hw. simpl. repeat split; reflexivity.
Qed.

Lemma X15_second_decode_appends_again_witness :
  exists r1 w1 r2 w2,
    EmlAdapter_decode (sample_lib attached_message (Ok sample_msg)) eml_file
      (PyBool true) (fresh [])
    = (Ok (Some r1), w1)
    /\ EmlAdapter_decode (sample_lib attached_message (Ok sample_msg)) eml_file
         (PyBool true) w1
       = (Ok (Some r2), w2)
    /\ attachment_names r1 = [lit "f.pdf"]
    /\ attachment_names r2 = [lit "f.pdf"; lit "f.pdf"].
Proof.
  eexists. eexists.
  edestruct (X15_second_decode_appends_again
               (sample_lib attached_message (Ok sample_msg)) eml_file eml_file
               (fresh [])) as (r2 & w2 & H2 & _ & _ & Hn);
    [reflexivity | reflexivity |].
  exists r2, w2. split; [reflexivity|]. split; [exact H2|].
  split; [reflexivity|].
  destruct (Hn eq_refl) as (-> & _). reflexivity.
Defined.

(** ** Nested parts *)

Lemma descendant_In_walk (p m : EmailMessage) :
  descendant p m -> In p (walk m).
Proof.
  induction 1 as [|m c parts Hpl Hin _ IH].
  - destruct p; simpl; left; reflexivity.
  - destruct m as [hs ct mt cd ps fn pl]. simpl in Hpl. subst pl.
    simpl. right. apply in_flat_map. exists c. split; assumption.
Qed.

(** X16. An attachment at any depth is recorded: a part of the message,
    or of a part of it, and so on, that has disposition [attachment] and
    a file name appears in the record a fresh text-container decode with
    attachments returns, with its name, its decoded payload and its
    content type at one and the same index. *)
Theorem X16_nested_attachments_are_recorded
    (L : Lib) (f : BinaryIO) (out : list str) (w' : World) (r : Email)
    (p : EmailMessage) (n : str) :
  EmlAdapter_decode L f (PyBool true) (fresh out) = (Ok (Some r), w') ->
  descendant p (message_from_binary_file L (read f)) ->
  is_attachment p = true ->
  get_filename p = Some n ->
  exists i,
    nth_error (attachment_names r) i = Some n
    /\ nth_error (attachment_binaries r) i = Some (get_payload_decode p)
    /\ nth_error (attachment_types r) i = Some (get_content_type p).
Proof.
  intros H Hd Ha Hn.
  apply EmlAdapter_decode_attachments in H as (Hnames & Hbins & Htypes).
  simpl in Hnames, Hbins, Htypes.
  assert (Hin : In p (eml_recorded (message_from_binary_file L (read f)))).
  { apply eml_recorded_In. split; [apply descendant_In_walk, Hd|].
    split; [exact Ha | eauto]. }
  apply In_nth_error in Hin as [i Hi]. exists i.
  rewrite Hnames, Hbins, Htypes.
  rewrite !nth_error_map, Hi. simpl. rewrite Hn. auto.
Qed.

Lemma X16_nested_attachments_are_recorded_witness :
  exists r w',
    EmlAdapter_decode (sample_lib nested_message (Ok sample_msg)) eml_file
      (PyBool true) (fresh [])
    = (Ok (Some r), w')
    /\ exists i, nth_error (attachment_names r) i = Some (lit "deep.pdf").
Proof.
  eexists. eexists. split; [reflexivity|].
  edestruct (X16_nested_attachments_are_recorded
               (sample_lib nested_message (Ok sample_msg)) eml_file []
               _ _
               (attachment_part "application/pdf" (Some (lit "deep.pdf"))
                  (blit "%PDF"))
               (lit "deep.pdf") eq_refl) as (i & Hi & _).
  - eapply descendant_child; [reflexivity | right; left; reflexivity |].
    eapply descendant_child; [reflexivity | right; left; reflexivity |].
    apply descendant_self.
  - reflexivity.
  - reflexivity.
  - exists i. exact Hi.
Defined.


(** ** Text parts that do not decode *)

Lemma texts_of_fails (L : Lib) (parts : list EmailMessage) (p : EmailMessage) :
  In p parts -> (forall t, part_text L p <> Ok t) ->
  exists e, texts_of L parts = Raise e.
Proof.
  intros Hin Hp. induction parts as [|q parts IH]; [destruct Hin|].
  simpl. destruct (part_text L q) as [t|e] eqn:Hq; simpl; [|eauto].
  destruct Hin as [->|Hin]; [exfalso; apply (Hp t Hq)|].
  destruct (IH Hin) as [e ->]. simpl. eauto.
Qed.

Lemma extract_body_from_eml_fails (L : Lib) (message p : EmailMessage) :
  (is_multipart message = true /\ In p (body_parts message))
  \/ (is_multipart message = false /\ p = message) ->
  (forall t, part_text L p <> Ok t) ->
  exists e, extract_body_from_eml L message = Raise e.
Proof.
  intros [[Hm Hin]|[Hm ->]] Hp; unfold extract_body_from_eml; rewrite Hm.
  - rewrite body_loop_eq. fold (body_parts message).
    destruct (texts_of_fails L _ p Hin Hp) as [e ->]. simpl. eauto.
  - fold (part_text L message).
    destruct (part_text L message) as [t|e]; [|eauto].
    exfalso. apply (Hp t). reflexivity.
Qed.

(** X17. No text part is skipped: when one text part that is not an
    attachment fails to decode, at any position of a multi-part message
    or as the single part, the text-container decode returns [None],
    whatever the other parts hold and whatever [read_attachments] is,
    and records no attachment. *)
Theorem X17_one_bad_text_part_fails_the_decode
    (L : Lib) (f : BinaryIO) (ra : pyval) (w : World) (p : EmailMessage) :
  let message := message_from_binary_file L (read f) in
  (is_multipart message = true /\ In p (body_parts message))
  \/ (is_multipart message = false /\ p = message) ->
  (forall t, part_text L p <> Ok t) ->
  exists w',
    EmlAdapter_decode L f ra w = (Ok None, w')
    /\ attachment_names (mail_data w') = attachment_names (mail_data w).
Proof.
  intros message Hp Hfail.
  destruct (extract_body_from_eml_fails L message p Hp Hfail) as [e He].
  rewrite EmlAdapter_decode_outcome. cbv zeta. fold message. rewrite He.
  destruct (parsedate_to_datetime L _); eexists; split; reflexivity.
Qed.

Lemma X17_one_bad_text_part_fails_the_decode_witness :
  exists w',
    EmlAdapter_decode (sample_lib bad_then_second_message (Ok sample_msg))
      eml_file (PyBool true) (fresh [])
    = (Ok None, w').
Proof.
  destruct (X17_one_bad_text_part_fails_the_decode
              (sample_lib bad_then_second_message (Ok sample_msg)) eml_file
              (PyBool true) (fresh []) (text_part [] "utf-8" [xff]))
    as (w' & H & _).
  - left. split; [reflexivity|]. left; reflexivity.
  - intros t. discriminate.
  - exists w'. exact H.
Defined.



(** X19. A multi-part message with no text part outside the attachments
    gets the empty body, also when [mail_data] held a body before; a
    compound-binary message whose body is [None] leaves the body that
    [mail_data] held. *)
Theorem X19_messages_without_a_body
    (L : Lib) (f : BinaryIO) (ra : pyval) (w w' : World) (r : Email) :
  (EmlAdapter_decode L f ra w = (Ok (Some r), w') ->
   is_multipart (message_from_binary_file L (read f)) = true ->
   body_parts (message_from_binary_file L (read f)) = [] ->
   body r = [])
  /\ (MsgAdapter_decode L f ra w = (Ok (Some r), w') ->
      forall mf, Message L (read f) = Ok mf -> msg_body mf = None ->
      body r = body (mail_data w)).
Proof.
  split.
  - intros H Hm Hnone.
    apply EmlAdapter_decode_Some in H as (ts & b & _ & Hb & ->).
    unfold extract_body_from_eml in Hb. rewrite Hm, body_loop_eq in Hb.
    fold (body_parts (message_from_binary_file L (read f))) in Hb.
    rewrite Hnone in Hb. simpl in Hb. inversion Hb; subst b.
    cbv zeta. destruct (is_True ra).
    + rewrite fold_record_eml_attachment. reflexivity.
    + reflexivity.
  - intros H mf Hmf Hnone.
    apply MsgAdapter_decode_Some in H as (m & ts & Hm & _ & ->).
    rewrite Hmf in Hm. inversion Hm; subst m. rewrite Hnone. cbv zeta.
    destruct (is_True ra).
    + rewrite fold_record_msg_attachment. reflexivity.
    + reflexivity.
Qed.

Lemma X19_messages_without_a_body_witness :
  exists r w',
    EmlAdapter_decode
      (sample_lib
         (multipart_message
            [attachment_part "application/pdf" (Some (lit "f.pdf")) (blit "%PDF")])
         (Ok sample_msg))
      eml_file (PyBool true) (mkWorld (set_body (lit "stale") initial_mail_data) [])
    = (Ok (Some r), w')
    /\ body r = [].
Proof.
  eexists. eexists. split; [reflexivity|].
  match goal with
  | |- body ?r = _ =>
      destruct (X19_messages_without_a_body
                  (sample_lib
                     (multipart_message
                        [attachment_part "application/pdf" (Some (lit "f.pdf"))
                           (blit "%PDF")])
                     (Ok sample_msg))
                  eml_file (PyBool true)
                  (mkWorld (set_body (lit "stale") initial_mail_data) [])
                  (mkWorld r []) r) as (H & _)
  end.
  apply H; reflexivity.
Defined.

(** ** Padding *)

Section StripPadding.
Context {A : Type} (drop : A -> bool).

Lemma lstrip_app_all (ws l : list A) :
  forallb drop ws = true -> lstrip drop (ws ++ l) = lstrip drop l.
Proof.
  induction ws as [|x ws IH]; simpl; [reflexivity|].
  intros H. apply andb_true_iff in H as [Hx Hws]. rewrite Hx. apply IH, Hws.
Qed.

(** A list cut into dropped elements, a core with clean ends, and
    dropped elements again strips to the core. *)
Lemma strip_unique (pre core post : list A) :
  forallb drop pre = true -> forallb drop post = true ->
  (forall x, hd_error core = Some x -> drop x = false) ->
  (forall x, last_opt core = Some x -> drop x = false) ->
  strip drop (pre ++ core ++ post) = core.
Proof.
  intros Hpre Hpost Hhd Hlast.
  destruct core as [|c core'].
  - simpl. apply strip_all. rewrite forallb_app, Hpre, Hpost. reflexivity.
  - unfold strip, rstrip.
    rewrite !rev_app_distr, <- app_assoc.
    rewrite lstrip_app_all by (apply forallb_rev, Hpost).
    assert (Hrev : exists x t, rev (c :: core') = x :: t /\ drop x = false).
    { destruct (rev (c :: core')) as [|x t] eqn:E.
      - apply (f_equal (@rev A)) in E. rewrite rev_involutive in E.
        discriminate.
      - exists x, t. split; [reflexivity|]. apply Hlast.
        unfold last_opt. rewrite E. reflexivity. }
    destruct Hrev as (x & t & E & Hx). rewrite E.
    simpl app. rewrite (lstrip_keep drop x (t ++ rev pre) Hx).
    change (x :: t ++ rev pre) with ((x :: t) ++ rev pre).
    rewrite <- E, rev_app_distr, !rev_involutive.
    rewrite lstrip_app_all by exact Hpre.
    apply lstrip_keep, Hhd. reflexivity.
Qed.

Lemma strip_padding (ws1 l ws2 : list A) :
  forallb drop ws1 = true -> forallb drop ws2 = true ->
  strip drop (ws1 ++ l ++ ws2) = strip drop l.
Proof.
  intros H1 H2.
  destruct (strip_spec drop l) as ((pre & post & Hd & Hpre & Hpost) & Hh & Hl).
  remember (strip drop l) as core eqn:Hcore.
  rewrite Hd.
  replace (ws1 ++ (pre ++ core ++ post) ++ ws2)
    with ((ws1 ++ pre) ++ core ++ (post ++ ws2))
    by (rewrite <- !app_assoc; reflexivity).
  apply strip_unique; try assumption.
  - rewrite forallb_app, H1, Hpre. reflexivity.
  - rewrite forallb_app, Hpost, H2. reflexivity.
Qed.
End StripPadding.

(** X20. Padding never reaches the body.  ASCII whitespace before and
    after the payload of a single-part message, the final newline
    included, does not change what body extraction returns, and NUL
    characters before and after the text of a compound-binary body do
    not change what is stored. *)
Theorem X20_padding_does_not_reach_the_body :
  (forall (L : Lib) (m : EmailMessage) (ws1 b ws2 : bytes),
      forallb is_space ws1 = true -> forallb is_space ws2 = true ->
      extract_body_from_eml L (with_payload m (Single (ws1 ++ b ++ ws2)))
      = extract_body_from_eml L (with_payload m (Single b)))
  /\ (forall (n1 s n2 : str),
         forallb is_nul n1 = true -> forallb is_nul n2 = true ->
         strip_nul (n1 ++ s ++ n2) = strip_nul s).
Proof.
  split.
  - intros L m ws1 b ws2 H1 H2.
    unfold extract_body_from_eml, is_multipart, decode_payload,
      get_payload_decode, bytes_strip. simpl payload. cbv iota.
    rewrite (strip_padding is_space ws1 b ws2 H1 H2). reflexivity.
  - intros n1 s n2. apply strip_padding.
Qed.

Lemma X20_padding_does_not_reach_the_body_witness :
  extract_body_from_eml (sample_lib hello_message (Ok sample_msg))
    (with_payload hello_message (Single (blit " " ++ blit "hello" ++ [x0d; x0a])))
  = Ok (lit "hello")
  /\ strip_nul ([0]%N ++ lit "a" ++ [0; 0]%N) = lit "a".
Proof.
  destruct X20_padding_does_not_reach_the_body as (H1 & H2).
  split.
  - rewrite H1; reflexivity.
  - rewrite H2; reflexivity.
Defined.


(** ** When a decode succeeds *)


(** X22. The two decoders share the header extraction: a record of the
    text decoder and a record of the compound-binary decoder whose
    container header is the same message agree on the subject, the date,
    the sender, the author and the recipients, whatever state each
    adapter started from. *)
Theorem X22_both_decoders_agree_on_headers
    (L : Lib) (f1 f2 : BinaryIO) (ra1 ra2 : pyval) (w1 w2 w1' w2' : World)
    (r1 r2 : Email) (mf : MsgFile) :
  EmlAdapter_decode L f1 ra1 w1 = (Ok (Some r1), w1') ->
  MsgAdapter_decode L f2 ra2 w2 = (Ok (Some r2), w2') ->
  Message L (read f2) = Ok mf ->
  header mf = message_from_binary_file L (read f1) ->
  header_fields_agree r1 r2.
Proof.
  intros H1 H2 Hmf Hh.
  apply EmlAdapter_decode_Some in H1 as (ts1 & b & Hd1 & _ & ->).
  apply MsgAdapter_decode_Some in H2 as (m & ts2 & Hm & Hd2 & ->).
  rewrite Hmf in Hm. inversion Hm; subst m.
  rewrite Hh in *. rewrite Hd1 in Hd2. inversion Hd2; subst ts2.
  set (hm := message_from_binary_file L (read f1)).
  cbv zeta.
  assert (G : forall e1 e2 : Email,
             header_fields_agree e1 (write_header L hm ts1 (mail_data w1)) ->
             header_fields_agree e2 (write_header L hm ts1 (mail_data w2)) ->
             header_fields_agree e1 e2).
  { unfold header_fields_agree. simpl.
    intros e1 e2 (A1&A2&A3&A4&A5&A6) (B1&B2&B3&B4&B5&B6).
    rewrite A1, A2, A3, A4, A5, A6, B1, B2, B3, B4, B5, B6.
    repeat split; reflexivity. }
  apply G.
  - destruct (is_True ra1).
    + rewrite fold_record_eml_attachment.
      unfold header_fields_agree. simpl. repeat split; reflexivity.
    + unfold header_fields_agree. simpl. repeat split; reflexivity.
  - destruct (is_True ra2).
    + rewrite fold_record_msg_attachment.
      destruct (msg_body mf); unfold header_fields_agree; simpl;
        repeat split; reflexivity.
    + destruct (msg_body mf); unfold header_fields_agree; simpl;
        repeat split; reflexivity.
Qed.

Lemma X22_both_decoders_agree_on_headers_witness :
  exists r1 r2 w1' w2',
    EmlAdapter_decode (sample_lib hello_message (Ok sample_msg)) eml_file
      (PyBool true) (fresh [])
    = (Ok (Some r1), w1')
    /\ MsgAdapter_decode (sample_lib hello_message (Ok sample_msg)) msg_file
         (PyBool false) (fresh [])
       = (Ok (Some r2), w2')
    /\ header_fields_agree r1 r2.
Proof.
  eexists. eexists. eexists. eexists.
  split; [reflexivity|]. split; [reflexivity|].
  eapply (X22_both_decoders_agree_on_headers
            (sample_lib hello_message (Ok sample_msg)) eml_file msg_file
            (PyBool true) (PyBool false) (fresh []) (fresh []));
    reflexivity.
Defined.
